(** * Smart Traffic Management System backend: lane classification,
      adaptive signal timing and the request handlers of [app.py].

    The Python sources are embedded shallowly:
    - a [dict] is an association list in insertion order with distinct keys
      (Python dicts iterate in insertion order, and the tie-break of [max]
      depends on it);
    - Python [int]s are [Z]; the float coordinates and confidences are
      rationals [Q] (every finite float is one, and [<] on them is exact);
    - a [str] is the [string] of its UTF-8 text; what the libraries do to
      text (str.lower, secure_filename) is taken from the environment;
    - an exception is a value of [PyExc]; code that mutates the module-level
      globals runs in a state-and-exception monad over [World]. *)

From Stdlib Require Import ZArith List String Ascii Bool Lia QArith Lqa.
From Stdlib Require Import DecimalString Permutation.
Import ListNotations.
Open Scope string_scope.
Open Scope Z_scope.

(** ** Exceptions and results *)

Inductive PyExc : Type :=
| ValueError          (* max() of an empty sequence *)
| ZeroDivisionError   (* // or / by zero *)
| UnboundLocalError   (* a local read before its first assignment *)
| AttributeError      (* attribute access on None *)
| OSError             (* a failing file operation *)
| Exception_ (msg : string).

Inductive Result (A : Type) : Type :=
| Ok (a : A)
| Raise (e : PyExc).
Arguments Ok {A} a.
Arguments Raise {A} e.

Definition is_ok {A} (r : Result A) : bool :=
  match r with Ok _ => true | Raise _ => false end.

Definition rbind {A B} (r : Result A) (k : A -> Result B) : Result B :=
  match r with Ok a => k a | Raise e => Raise e end.

(** ** Python dictionaries *)

Section Dict.
Context {V : Type}.

Definition dict := list (string * V).

Definition dict_keys (d : dict) : list string := map fst d.
Definition dict_values (d : dict) : list V := map snd d.

(* d.get(k) *)
Fixpoint dict_get (d : dict) (k : string) : option V :=
  match d with
  | [] => None
  | (k', v) :: t => if String.eqb k' k then Some v else dict_get t k
  end.

(* k in d *)
Definition dict_mem (k : string) (d : dict) : bool :=
  match dict_get d k with Some _ => true | None => false end.

(* d[k] = v : an existing key keeps its position, a new key goes last *)
Fixpoint dict_set (d : dict) (k : string) (v : V) : dict :=
  match d with
  | [] => [(k, v)]
  | (k', v') :: t =>
      if String.eqb k' k then (k', v) :: t else (k', v') :: dict_set t k v
  end.

(* del d[k] / removal of an entry *)
Fixpoint dict_del (d : dict) (k : string) : dict :=
  match d with
  | [] => []
  | (k', v') :: t =>
      if String.eqb k' k then t else (k', v') :: dict_del t k
  end.

(* d.update(other) *)
Definition dict_update (d other : dict) : dict :=
  fold_left (fun acc kv => dict_set acc (fst kv) (snd kv)) other d.

(* the invariant of a Python dict: no key occurs twice *)
Definition dict_wf (d : dict) : Prop := NoDup (dict_keys d).
End Dict.
Arguments dict V : clear implicits.

(** ** The builtin [max]

    CPython keeps the first item and replaces it only by an item that
    compares strictly greater, so the first maximal item wins. *)

Section PyMax.
Context {A : Type} (key : A -> Z).

Fixpoint max_from (best : A) (l : list A) : A :=
  match l with
  | [] => best
  | x :: t => if key best <? key x then max_from x t else max_from best t
  end.

Definition py_max (l : list A) : Result A :=
  match l with
  | [] => Raise ValueError
  | x :: t => Ok (max_from x t)
  end.
End PyMax.

(** ** Signal states *)

Inductive Signal : Type := Green | Red.
Inductive Priority : Type := High | Low.

(* The per-lane dictionary {'count', 'signal', 'time'[, 'priority']}:
   [app.py] builds it without the 'priority' key, [utils.py] with it. *)
Record LaneData : Type := mkLaneData {
  count : Z;
  signal : Signal;
  time : Z;
  priority : option Priority
}.

Definition SignalState := dict LaneData.

Definition is_green (ld : LaneData) : bool :=
  match signal ld with Green => true | Red => false end.

(* the lanes a state shows Green, in the state's order *)
Definition green_lanes (s : SignalState) : list string :=
  dict_keys (filter (fun kv => is_green (snd kv)) s).

(* vehicle_counts.get, as the key function of max: the keys handed to it
   are the dictionary's own, for which [get] never yields None *)
Definition counts_get (vehicle_counts : dict Z) (lane : string) : Z :=
  match dict_get vehicle_counts lane with Some c => c | None => 0 end.

(* x < n for a float x and an int n *)
Definition Qltb (x y : Q) : bool := negb (Qle_bool y x).

(** ** config.py *)

Module Config.
Definition LANES : list string := ["A"; "B"; "C"; "D"].
Definition LANE_COUNT : Z := 4.
Definition BASE_GREEN_TIME : Z := 15.
Definition MAX_GREEN_TIME : Z := 30.
Definition RED_TIME : Z := 15.
Definition DENSITY_low : Z := 5.
Definition DENSITY_medium : Z := 10.
Definition DENSITY_high : Z := 15.

(* Config.get_signal_timing: the step function of the timing table *)
Definition get_signal_timing (vehicle_count : Z) : Z :=
  if vehicle_count <=? DENSITY_low then BASE_GREEN_TIME
  else if vehicle_count <=? DENSITY_medium then 20
  else if vehicle_count <=? DENSITY_high then 25
  else MAX_GREEN_TIME.

(* Config.get_lane_from_coordinates; LANE_COUNT is the constant 4, so the
   floor division cannot fail *)
Definition get_lane_from_coordinates (x : Q) (frame_width : Z) : string :=
  let lane_width := frame_width / LANE_COUNT in
  if Qltb x (inject_Z lane_width) then "A"
  else if Qltb x (inject_Z (lane_width * 2)) then "B"
  else if Qltb x (inject_Z (lane_width * 3)) then "C"
  else "D".
End Config.

(** ** app.py: calculate_signal_timing *)

Definition base_green_time : Z := 15.
Definition max_green_time : Z := 30.

Definition green_time_of (max_count : Z) : Z :=
  if 15 <? max_count then max_green_time
  else if 10 <? max_count then 25
  else if 5 <? max_count then 20
  else base_green_time.

Definition calculate_signal_timing (vehicle_counts : dict Z)
  : Result SignalState :=
  rbind (py_max (fun c => c) (dict_values vehicle_counts)) (fun max_count =>
  rbind (py_max (counts_get vehicle_counts) (dict_keys vehicle_counts))
    (fun max_lane =>
  let green_time := green_time_of max_count in
  Ok (fold_left
        (fun signals (item : string * Z) =>
           let (lane, count) := item in
           if String.eqb lane max_lane
           then dict_set signals lane (mkLaneData count Green green_time None)
           else dict_set signals lane
                  (mkLaneData count Red base_green_time None))
        vehicle_counts []))).

(** ** utils.py: SignalController *)

Module SignalController.
Definition calculate_adaptive_timing (vehicle_counts : dict Z)
  : Result SignalState :=
  rbind (py_max (counts_get vehicle_counts) (dict_keys vehicle_counts))
    (fun max_lane =>
  (* vehicle_counts[max_lane]: max_lane is a key of vehicle_counts *)
  let max_count := counts_get vehicle_counts max_lane in
  let green_time :=
    if 15 <? max_count then 30
    else if 10 <? max_count then 25
    else if 5 <? max_count then 20
    else 15 in
  Ok (fold_left
        (fun signals (item : string * Z) =>
           let (lane, count) := item in
           if String.eqb lane max_lane
           then dict_set signals lane
                  (mkLaneData count Green green_time (Some High))
           else dict_set signals lane (mkLaneData count Red 15 (Some Low)))
        vehicle_counts [])).

Definition calculate_cycle_time (signals : SignalState) : Z :=
  fold_left (fun total_time lane_data => total_time + time lane_data)
            (dict_values signals) 0.
End SignalController.

(** ** utils.py: LaneDetector *)

Module LaneDetector.
(* [//] is floor division, as [Z.div] is; it raises on a zero divisor *)
Definition determine_lane (x_coord : Q) (frame_width num_lanes : Z)
  : Result string :=
  if num_lanes =? 0 then Raise ZeroDivisionError
  else
    let lane_width := frame_width / num_lanes in
    Ok (if Qltb x_coord (inject_Z lane_width) then "A"
        else if Qltb x_coord (inject_Z (lane_width * 2)) then "B"
        else if Qltb x_coord (inject_Z (lane_width * 3)) then "C"
        else "D").

(* the default argument num_lanes = 4 *)
Definition determine_lane_default (x_coord : Q) (frame_width : Z)
  : Result string :=
  determine_lane x_coord frame_width 4.
End LaneDetector.

(* position of a lane identifier in the ascending order A < B < C < D *)
Definition lane_rank (lane : string) : Z :=
  if String.eqb lane "A" then 0
  else if String.eqb lane "B" then 1
  else if String.eqb lane "C" then 2
  else 3.

(** ** app.py: the module-level state *)

Inductive Status : Type := idle | processing | completed | error.

(* processing_status = {'status': ..., 'progress': ...} *)
Record ProcessingStatus : Type := mkStatus {
  status : Status;
  progress : Z
}.

(* One detection box as the frame loop reads it: box.cls[0], box.conf[0]
   and the left edge x1 of box.xyxy[0]. *)
Record Box : Type := mkBox {
  cls : Z;
  conf : Q;
  x1 : Q
}.

(* A decoded frame: frame.shape[1], and what model(frame) gives for it, the
   boxes of its results or an exception. *)
Record Frame : Type := mkFrame {
  shape1 : Z;
  detections : Result (list Box)
}.

(* A file as cv2.VideoCapture sees it: cap.isOpened(), CAP_PROP_FRAME_COUNT,
   and the finite sequence of frames cap.read() hands out. *)
Record Video : Type := mkVideo {
  isOpened : bool;
  CAP_PROP_FRAME_COUNT : Z;
  video_frames : list Frame
}.

(* The globals of app.py and the files of UPLOAD_FOLDER (path -> content).
   PROCESSED_FOLDER, a different directory that only receives annotated
   frames, is not part of the state. *)
Record World : Type := mkWorld {
  current_video_data : SignalState;
  processing_status : ProcessingStatus;
  uploads : dict Video
}.

Definition initial_video_data : SignalState :=
  [("laneA", mkLaneData 0 Red 15 None);
   ("laneB", mkLaneData 0 Red 15 None);
   ("laneC", mkLaneData 0 Red 15 None);
   ("laneD", mkLaneData 0 Red 15 None)].

Definition initial_world : World :=
  mkWorld initial_video_data (mkStatus idle 0) [].

(* What file.save(video_path) does: it writes the file, or fails before
   creating it, or fails while writing and leaves a truncated file. *)
Inductive SaveOutcome : Type :=
| SaveOk
| SaveFailsBeforeCreate
| SaveFailsWhileWriting (truncated : Video).

(* What is outside the program during one request. *)
Record Env : Type := mkEnv {
  YOLO_AVAILABLE : bool;                (* did `from ultralytics import YOLO` work *)
  yolo_loads : bool;                    (* does YOLO('yolov8n.pt') return *)
  float_percent : Z -> Z -> Z;          (* int((frame_count / total_frames) * 100),
                                           float arithmetic, total_frames <> 0 *)
  randint : Z -> Z -> Z;                (* the draws of random.randint *)
  secure_filename : string -> string;   (* werkzeug.utils.secure_filename *)
  now : string;                         (* datetime.now().strftime(...) *)
  save_outcome : SaveOutcome;           (* file.save *)
  remove_raises : bool;                 (* does os.remove raise *)
  str_lower : string -> string          (* str.lower, on the UTF-8 text of a
                                           str *)
}.

(** ** State and exceptions

    A statement maps the world to an outcome and a world; an exception leaves
    the writes made before it in place, as in Python. *)

Definition M (A : Type) : Type := World -> Result A * World.

Definition ret {A} (a : A) : M A := fun w => (Ok a, w).
Definition raise {A} (e : PyExc) : M A := fun w => (Raise e, w).
Definition bind {A B} (m : M A) (k : A -> M B) : M B :=
  fun w => match m w with
           | (Ok a, w') => k a w'
           | (Raise e, w') => (Raise e, w')
           end.
Definition lift {A} (r : Result A) : M A := fun w => (r, w).

(* reads of the globals and of the upload folder *)
Definition read_current_video_data : M SignalState :=
  fun w => (Ok (current_video_data w), w).
Definition read_processing_status : M ProcessingStatus :=
  fun w => (Ok (processing_status w), w).
Definition read_uploads : M (dict Video) :=
  fun w => (Ok (uploads w), w).

(* try: body / except Exception as e: handler *)
Definition try_except {A} (body : M A) (handler : PyExc -> M A) : M A :=
  fun w => match body w with
           | (Ok a, w') => (Ok a, w')
           | (Raise e, w') => handler e w'
           end.

Declare Scope py_scope.
Delimit Scope py_scope with py.
Notation "x <- m ;; k" := (bind m (fun x => k))
  (at level 61, m at next level, right associativity) : py_scope.
Notation "m ;; k" := (bind m (fun _ => k))
  (at level 61, right associativity) : py_scope.
Open Scope py_scope.

(* processing_status['status'] = s *)
Definition set_status (s : Status) : M unit :=
  fun w => (Ok tt, mkWorld (current_video_data w)
                           (mkStatus s (progress (processing_status w)))
                           (uploads w)).

(* processing_status['progress'] = p *)
Definition set_progress (p : Z) : M unit :=
  fun w => (Ok tt, mkWorld (current_video_data w)
                           (mkStatus (status (processing_status w)) p)
                           (uploads w)).

(* current_video_data = s *)
Definition set_current_video_data (s : SignalState) : M unit :=
  fun w => (Ok tt, mkWorld s (processing_status w) (uploads w)).

Definition set_uploads (u : dict Video) : M unit :=
  fun w => (Ok tt, mkWorld (current_video_data w) (processing_status w) u).

(* for x in xs: body x *)
Fixpoint for_each {A} (xs : list A) (body : A -> M unit) : M unit :=
  match xs with
  | [] => ret tt
  | x :: rest => body x ;; for_each rest body
  end.

(* range(n) *)
Definition range (n : nat) : list Z := map Z.of_nat (seq 0 n).

(** ** app.py: allowed_file *)

Definition ALLOWED_EXTENSIONS : list string := ["mp4"; "avi"; "mov"; "mkv"].
Definition UPLOAD_FOLDER : string := "uploads".

(* filename.rsplit('.', 1)[1]: the text after the last '.', when there is
   a '.' *)
Fixpoint rsplit_dot (s : string) : option string :=
  match s with
  | EmptyString => None
  | String c t =>
      match rsplit_dot t with
      | Some ext => Some ext
      | None => if Ascii.eqb c "."%char then Some t else None
      end
  end.

(* What str.lower does to ASCII text: A-Z become a-z, every other character
   stays. On text with other cased letters str.lower does more (it is
   Unicode-aware), so the handlers take str.lower from the environment and
   the concrete environments below, whose filenames are ASCII, put this
   function there. *)
Definition lower_ascii (c : ascii) : ascii :=
  let n := nat_of_ascii c in
  if (Nat.leb 65 n && Nat.leb n 90)%bool then ascii_of_nat (n + 32) else c.

Fixpoint lower (s : string) : string :=
  match s with
  | EmptyString => EmptyString
  | String c t => String (lower_ascii c) (lower t)
  end.

Definition allowed_file (env : Env) (filename : string) : bool :=
  match rsplit_dot filename with
  | Some ext => existsb (String.eqb (str_lower env ext)) ALLOWED_EXTENSIONS
  | None => false
  end.

(* os.path.join(folder, name) for a relative name *)
Definition path_join (folder name : string) : string :=
  folder ++ "/" ++ name.

(** ** app.py: responses *)

(* The dictionary process_video_yolo / process_video_dummy return. In the
   failure shape 'error' is str(e); the exception stands for its text. *)
Inductive ProcessResult : Type :=
| ProcessOk (vehicle_counts : dict Z) (signals : SignalState)
            (processed_frames : Z) (message : string)
| ProcessFailed (e : PyExc) (message : string).

(* result['success'] *)
Definition success (result : ProcessResult) : bool :=
  match result with ProcessOk _ _ _ _ => true | ProcessFailed _ _ => false end.

Inductive Body : Type :=
| ProcessBody (result : ProcessResult)        (* jsonify(result) *)
| ErrorBody (error_text : string)             (* success False, a fixed text *)
| InvalidLaneBody (lane : string)             (* f'Invalid lane: {lane}' *)
| ExceptionBody (e : PyExc)                   (* success False, str(e) *)
| SimulateBody (lane : string) (n : Z) (data : SignalState)
| DataBody (data : SignalState).

Record Response : Type := mkResponse {
  http_code : Z;
  body : Body
}.

(* the multipart request of /process_video: request.files['video'], when the
   part is there, as its filename and its content *)
Record UploadRequest : Type := mkUpload {
  files_video : option (string * Video)
}.

(* the JSON body of /simulate_traffic: None when there is no JSON object,
   else the 'lane' and 'count' members, each present or not; the count is an
   integer, as the clients send it *)
Record SimulateRequest : Type := mkSimulate {
  get_json : option (option string * option Z)
}.

(** ** app.py: process_video_yolo and process_video_dummy *)

(* vehicle_counts[lane] += 1, on a key the dictionary has *)
Definition increment (vehicle_counts : dict Z) (lane : string) : dict Z :=
  dict_set vehicle_counts lane (counts_get vehicle_counts lane + 1).

(* cls in [2, 3, 5, 7] and conf > 0.5 *)
Definition is_vehicle (box : Box) : bool :=
  (existsb (Z.eqb (cls box)) [2; 3; 5; 7] && Qltb (1 # 2) (conf box))%bool.

(* The body of `for box in boxes`. The local frame_width is assigned only
   here, under the vehicle filter; None is the unassigned local. *)
Definition count_box (frame : Frame) (locals : dict Z * option Z) (box : Box)
  : dict Z * option Z :=
  let (vehicle_counts, _) := locals in
  if is_vehicle box then
    let frame_width := shape1 frame in
    let lane_width := frame_width / 4 in
    let lane :=
      if Qltb (x1 box) (inject_Z lane_width) then "laneA"
      else if Qltb (x1 box) (inject_Z (lane_width * 2)) then "laneB"
      else if Qltb (x1 box) (inject_Z (lane_width * 3)) then "laneC"
      else "laneD" in
    (increment vehicle_counts lane, Some frame_width)
  else locals.

(* the locals the frame loop carries from one frame to the next *)
Record Locals : Type := mkLocals {
  frame_count : Z;
  vehicle_counts : dict Z;
  frame_width : option Z
}.

(* `while True: ret, frame = cap.read(); if not ret: break; ...`
   Drawing on the frame, cv2.imwrite and time.sleep do not touch the state
   modelled here. *)
Fixpoint frame_loop (env : Env) (total_frames : Z) (frames : list Frame)
  (locals : Locals) : M Locals :=
  match frames with
  | [] => ret locals
  | frame :: rest =>
      let frame_count := frame_count locals + 1 in
      (if total_frames =? 0 then raise ZeroDivisionError
       else set_progress (float_percent env frame_count total_frames)) ;;
      boxes <- lift (detections frame) ;;
      let (vehicle_counts, frame_width) :=
        fold_left (count_box frame) boxes
                  (vehicle_counts locals, frame_width locals) in
      (* the lane dividers read frame_width *)
      match frame_width with
      | None => raise UnboundLocalError
      | Some _ =>
          frame_loop env total_frames rest
                     (mkLocals frame_count vehicle_counts frame_width)
      end
  end.

Definition process_video_dummy (env : Env) (video_path : string)
  : M ProcessResult :=
  try_except
    (set_progress 0 ;;
     let vehicle_counts :=
       [("laneA", randint env 8 20);
        ("laneB", randint env 5 15);
        ("laneC", randint env 6 18);
        ("laneD", randint env 4 16)] in
     for_each (range 10) (fun i => set_progress ((i + 1) * 10)) ;;
     signals <- lift (calculate_signal_timing vehicle_counts) ;;
     ret (ProcessOk vehicle_counts signals 0
            "Video processed in dummy mode (random data)"))
    (fun e => ret (ProcessFailed e "Error in dummy mode processing")).

Definition process_video_yolo (env : Env) (video_path : string)
  : M ProcessResult :=
  if negb (YOLO_AVAILABLE env) then process_video_dummy env video_path
  else
    try_except
      ((if yolo_loads env then ret tt
        else raise (Exception_ "model could not be loaded")) ;;
       files <- read_uploads ;;
       (* cap = cv2.VideoCapture(video_path) *)
       match dict_get files video_path with
       | None => raise (Exception_ "Could not open video file")
       | Some cap =>
           if negb (isOpened cap)
           then raise (Exception_ "Could not open video file")
           else
             let total_frames := CAP_PROP_FRAME_COUNT cap in
             locals <- frame_loop env total_frames (video_frames cap)
                         (mkLocals 0
                            [("laneA", 0); ("laneB", 0);
                             ("laneC", 0); ("laneD", 0)]
                            None) ;;
             signals <- lift (calculate_signal_timing (vehicle_counts locals)) ;;
             ret (ProcessOk (vehicle_counts locals) signals
                    (frame_count locals)
                    "Video processed successfully with YOLO")
       end)
      (fun e => ret (ProcessFailed e
         "Error processing video with YOLO, falling back to dummy mode")).

(** ** app.py: the file operations of process_video *)

Definition file_save (env : Env) (video_path : string) (content : Video)
  : M unit :=
  match save_outcome env with
  | SaveOk =>
      files <- read_uploads ;; set_uploads (dict_set files video_path content)
  | SaveFailsBeforeCreate => raise OSError
  | SaveFailsWhileWriting truncated =>
      files <- read_uploads ;;
      set_uploads (dict_set files video_path truncated) ;;
      raise OSError
  end.

Definition os_path_exists (path : string) : M bool :=
  files <- read_uploads ;; ret (dict_mem path files).

Definition os_remove (env : Env) (path : string) : M unit :=
  if remove_raises env then raise OSError
  else files <- read_uploads ;; set_uploads (dict_del files path).

(* the path process_video saves an accepted upload under *)
Definition video_path_of (env : Env) (filename : string) : string :=
  path_join UPLOAD_FOLDER (now env ++ "_" ++ secure_filename env filename).

(** ** app.py: the request handlers *)

Definition process_video (env : Env) (request : UploadRequest) : M Response :=
  try_except
    (match files_video request with
     | None => ret (mkResponse 400 (ErrorBody "No video file provided"))
     | Some (file_filename, content) =>
         if String.eqb file_filename ""
         then ret (mkResponse 400 (ErrorBody "No file selected"))
         else if allowed_file env file_filename then
           let video_path := video_path_of env file_filename in
           file_save env video_path content ;;
           set_status processing ;;
           set_progress 0 ;;
           result <- (if YOLO_AVAILABLE env
                      then process_video_yolo env video_path
                      else process_video_dummy env video_path) ;;
           (if success result
            then match result with
                 | ProcessOk _ signals _ _ => set_current_video_data signals
                 | ProcessFailed _ _ => ret tt
                 end
            else ret tt) ;;
           set_status completed ;;
           set_progress 100 ;;
           there <- os_path_exists video_path ;;
           (if there then os_remove env video_path else ret tt) ;;
           ret (mkResponse 200 (ProcessBody result))
         else
           ret (mkResponse 400
                  (ErrorBody "Invalid file type. Allowed: mp4, avi, mov, mkv"))
     end)
    (fun e =>
       set_status error ;;
       ret (mkResponse 500 (ExceptionBody e))).

Definition get_traffic_data : M Response :=
  data <- read_current_video_data ;; ret (mkResponse 200 (DataBody data)).

Definition get_processing_status : M ProcessingStatus :=
  read_processing_status.

(* current_video_data[key]['count'] = n, on a key the dictionary has *)
Definition set_lane_count (data : SignalState) (key : string) (n : Z)
  : SignalState :=
  match dict_get data key with
  | Some lane_data =>
      dict_set data key
        (mkLaneData n (signal lane_data) (time lane_data) (priority lane_data))
  | None => data
  end.

(* {lane: data['count'] for lane, data in current_video_data.items()} *)
Definition counts_of (data : SignalState) : dict Z :=
  fold_left (fun acc (item : string * LaneData) =>
               dict_set acc (fst item) (count (snd item)))
            data [].

Definition simulate_traffic (env : Env) (request : SimulateRequest)
  : M Response :=
  try_except
    (data <- match get_json request with
             | None => raise AttributeError
             | Some data => ret data
             end ;;
     let lane := match fst data with Some l => l | None => "A" end in
     let n := match snd data with
              | Some n => n
              | None => randint env 5 20
              end in
     current <- read_current_video_data ;;
     if dict_mem ("lane" ++ lane) current then
       set_current_video_data (set_lane_count current ("lane" ++ lane) n) ;;
       current <- read_current_video_data ;;
       let vehicle_counts := counts_of current in
       signals <- lift (calculate_signal_timing vehicle_counts) ;;
       set_current_video_data (dict_update current signals) ;;
       current <- read_current_video_data ;;
       ret (mkResponse 200 (SimulateBody lane n current))
     else
       ret (mkResponse 400 (InvalidLaneBody lane)))
    (fun e => ret (mkResponse 500 (ExceptionBody e))).

Definition reset_signals : M Response :=
  set_current_video_data initial_video_data ;;
  data <- read_current_video_data ;; ret (mkResponse 200 (DataBody data)).

(** ** The lane enumeration of the specification *)

Inductive LaneId : Type := LaneA | LaneB | LaneC | LaneD.

Definition lane_id_rank (l : LaneId) : Z :=
  match l with LaneA => 0 | LaneB => 1 | LaneC => 2 | LaneD => 3 end.

(* the keys utils.py uses for the lanes, and the keys app.py uses *)
Definition lane_name (l : LaneId) : string :=
  match l with LaneA => "A" | LaneB => "B" | LaneC => "C" | LaneD => "D" end.

Definition lane_key (l : LaneId) : string := "lane" ++ lane_name l.

(* a count mapping written in ascending lane order, as every dictionary
   literal of the sources writes it *)
Definition ascending_counts (name : LaneId -> string) (c : LaneId -> Z)
  : dict Z :=
  [(name LaneA, c LaneA); (name LaneB, c LaneB);
   (name LaneC, c LaneC); (name LaneD, c LaneD)].

(* The priority lane in the specification's words: the lane with the
   maximum count, the lowest lane identifier winning a tie. *)
Definition spec_priority_lane (c : LaneId -> Z) : LaneId :=
  let m := Z.max (Z.max (c LaneA) (c LaneB)) (Z.max (c LaneC) (c LaneD)) in
  if c LaneA =? m then LaneA
  else if c LaneB =? m then LaneB
  else if c LaneC =? m then LaneC
  else LaneD.

(* The signal state the timing table asks for, given the Green lane: that
   lane Green with the table's duration for its own count, every other lane
   Red for 15 seconds. [hi] and [lo] are the 'priority' members of the two
   shapes. *)
Definition table_entry (hi lo : option Priority) (green_lane : string)
  (item : string * Z) : string * LaneData :=
  (fst item,
   if String.eqb (fst item) green_lane
   then mkLaneData (snd item) Green (Config.get_signal_timing (snd item)) hi
   else mkLaneData (snd item) Red 15 lo).

Definition meets_timing_table (hi lo : option Priority)
  (vehicle_counts : dict Z) (r : Result SignalState) : Prop :=
  exists signals green_lane,
    r = Ok signals /\
    In green_lane (dict_keys vehicle_counts) /\
    signals = map (table_entry hi lo green_lane) vehicle_counts /\
    green_lanes signals = [green_lane] /\
    SignalController.calculate_cycle_time signals
    = Config.get_signal_timing (counts_get vehicle_counts green_lane)
      + 15 * (Z.of_nat (List.length vehicle_counts) - 1).

(* the lane both timing functions turn Green *)
Definition chosen_lane (vehicle_counts : dict Z) : Result string :=
  py_max (counts_get vehicle_counts) (dict_keys vehicle_counts).

(* the Green lanes of a returned state *)
Definition result_green_lanes (r : Result SignalState) : Result (list string) :=
  rbind r (fun signals => Ok (green_lanes signals)).

(* the count mapping of lanes A..D as a function of the lane, for a
   dictionary keyed by [name] *)
Definition counts_by_lane (name : LaneId -> string) (vehicle_counts : dict Z)
  : LaneId -> Z :=
  fun l => counts_get vehicle_counts (name l).

(* a tie between A and B, written with B first *)
Definition tie_b_first (name : LaneId -> string) : dict Z :=
  [(name LaneB, 10); (name LaneA, 10); (name LaneC, 5); (name LaneD, 5)].

(* the tie of the specification's example *)
Definition tie_example (l : LaneId) : Z :=
  match l with LaneA => 10 | LaneB => 10 | LaneC => 5 | LaneD => 5 end.

(** ** Notions used to state the properties of the handlers *)

(* the count of every lane of a state, in the state's order *)
Definition counts_map (data : SignalState) : dict Z :=
  map (fun item => (fst item, count (snd item))) data.

(* two worlds that differ at most in processing_status *)
Definition same_data (w1 w2 : World) : Prop :=
  current_video_data w1 = current_video_data w2 /\ uploads w1 = uploads w2.

(* a statement whose outcome and whose writes to current_video_data and to
   the upload folder do not depend on processing_status *)
Definition ignores_status {A} (m : M A) : Prop :=
  forall w1 w2,
    same_data w1 w2 ->
    fst (m w1) = fst (m w2) /\ same_data (snd (m w1)) (snd (m w2)).

(* w' differs from w at most in processing_status['progress'] *)
Definition only_progress (w w' : World) : Prop :=
  current_video_data w' = current_video_data w /\
  uploads w' = uploads w /\
  status (processing_status w') = status (processing_status w).

Definition writes_only_progress {A} (m : M A) : Prop :=
  forall w, only_progress w (snd (m w)).

Definition never_raises {A} (m : M A) : Prop :=
  forall w, exists a, fst (m w) = Ok a.

(* the world with another processing_status *)
Definition with_status (w : World) (ps : ProcessingStatus) : World :=
  mkWorld (current_video_data w) ps (uploads w).

(* the processing step of process_video *)
Definition run_processing (env : Env) (video_path : string) : M ProcessResult :=
  if YOLO_AVAILABLE env
  then process_video_yolo env video_path
  else process_video_dummy env video_path.

(* the state a result dictionary leaves published: its signals when it is a
   success, the earlier state otherwise *)
Definition published_after (result : ProcessResult) (before : SignalState)
  : SignalState :=
  match result with
  | ProcessOk _ signals _ _ => signals
  | ProcessFailed _ _ => before
  end.

(** ** Concrete requests and worlds *)

(* a file cv2.VideoCapture cannot open *)
Definition unopenable_video : Video := mkVideo false 0 [].

(* one 640-pixel frame with a car in lane C *)
Definition one_car_video : Video :=
  mkVideo true 1 [mkFrame 640 (Ok [mkBox 2 (9 # 10) 400])].

(* YOLO installed and loading, no file operation failing *)
Definition yolo_env : Env :=
  mkEnv true true (fun frame_count total_frames =>
                     frame_count * 100 / total_frames)
        (fun lo hi => lo) (fun name => name) "20240101_120000" SaveOk false
        lower.

(* one frame on which the detector finds no vehicle *)
Definition empty_road_video : Video :=
  mkVideo true 1 [mkFrame 640 (Ok [])].

(* the same, with file.save failing while it writes *)
Definition save_failing_env : Env :=
  mkEnv true true (fun frame_count total_frames =>
                     frame_count * 100 / total_frames)
        (fun lo hi => lo) (fun name => name) "20240101_120000"
        (SaveFailsWhileWriting unopenable_video) false lower.

(* YOLO installed and loading, os.remove raising *)
Definition remove_failing_env : Env :=
  mkEnv true true (fun frame_count total_frames =>
                     frame_count * 100 / total_frames)
        (fun lo hi => lo) (fun name => name) "20240101_120000" SaveOk true
        lower.

(* the state an earlier job published *)
Definition published_data : SignalState :=
  [("laneA", mkLaneData 8 Red 15 None);
   ("laneB", mkLaneData 4 Red 15 None);
   ("laneC", mkLaneData 20 Green 30 None);
   ("laneD", mkLaneData 9 Red 15 None)].

Definition world_after_job : World :=
  mkWorld published_data (mkStatus completed 100) [].

(* a first job is at 40 percent, its upload on disk *)
Definition busy_world : World :=
  mkWorld published_data (mkStatus processing 40)
          [("uploads/20240101_115959_first.mp4", one_car_video)].

Definition clip_request (content : Video) : UploadRequest :=
  mkUpload (Some ("clip.mp4", content)).

Definition clip_path : string := "uploads/20240101_120000_clip.mp4".

(** ** utils.py: detections, counting by lane and phases *)

(* A detection dictionary, as far as the functions below read it: the
   optional members 'lane' and 'class'. *)
Record Detection : Type := mkDetection {
  det_lane : option string;
  det_class : option string
}.

(* detection.get('lane', 'A') *)
Definition detection_lane (detection : Detection) : string :=
  match det_lane detection with Some lane => lane | None => "A" end.

(* LaneDetector.count_vehicles_by_lane *)
Definition count_vehicles_by_lane (detections : list Detection) : dict Z :=
  fold_left
    (fun lane_counts detection =>
       let lane := detection_lane detection in
       if dict_mem lane lane_counts
       then increment lane_counts lane
       else lane_counts)
    detections
    [("A", 0); ("B", 0); ("C", 0); ("D", 0)].

(* list.index(x): the first position of x, ValueError when x is absent *)
Fixpoint list_index (x : string) (l : list string) : Result nat :=
  match l with
  | [] => Raise ValueError
  | y :: t =>
      if String.eqb y x then Ok O
      else rbind (list_index x t) (fun i => Ok (S i))
  end.

(* SignalController.get_next_phase. The two lookups after index() cannot
   miss: next_index is below len(lanes) and next_lane is a key. *)
Definition get_next_phase (signals : SignalState) (current_lane : string)
  : Result (string * Z) :=
  let lanes := dict_keys signals in
  rbind (list_index current_lane lanes) (fun current_index =>
  let next_index := Nat.modulo (current_index + 1) (List.length lanes) in
  match nth_error lanes next_index with
  | None => Raise (Exception_ "IndexError")
  | Some next_lane =>
      match dict_get signals next_lane with
      | None => Raise (Exception_ "KeyError")
      | Some lane_data => Ok (next_lane, time lane_data)
      end
  end).

(** ** utils.py: VideoProcessor.extract_frames *)

(* s.endswith('/') *)
Fixpoint ends_with_slash (s : string) : bool :=
  match s with
  | EmptyString => false
  | String c EmptyString => Ascii.eqb c "/"%char
  | String _ t => ends_with_slash t
  end.

(* os.path.join(a, b) for a relative b *)
Definition os_path_join (a b : string) : string :=
  if String.eqb a "" then b
  else if ends_with_slash a then a ++ b
  else a ++ "/" ++ b.

Fixpoint zeros (n : nat) : string :=
  match n with O => "" | S k => String "0"%char (zeros k) end.

(* f"{n:04d}" for n >= 0 *)
Definition format_04d (n : Z) : string :=
  let digits := NilEmpty.string_of_uint (N.to_uint (Z.to_N n)) in
  zeros (4 - String.length digits) ++ digits.

(* the `while True` loop of extract_frames; [%] is Z.modulo, whose sign
   follows the divisor as in Python, and raises on a zero divisor *)
Fixpoint extract_loop (output_dir : string) (frame_interval : Z)
  (frames : list Frame) (frame_index : Z) (saved_frames : list string)
  : Result (list string) :=
  match frames with
  | [] => Ok saved_frames
  | _ :: rest =>
      if frame_interval =? 0 then Raise ZeroDivisionError
      else
        let saved_frames :=
          if frame_index mod frame_interval =? 0
          then (saved_frames
                ++ [os_path_join output_dir
                      ("frame_" ++ format_04d frame_index ++ ".jpg")])%list
          else saved_frames in
        extract_loop output_dir frame_interval rest (frame_index + 1)
                     saved_frames
  end.

(* extract_frames, on what cv2.VideoCapture(video_path) yields; the images
   cv2.imwrite puts on disk are outside the state modelled here *)
Definition extract_frames (cap : Video) (output_dir : string)
  (frame_interval : Z) : list string :=
  match (if negb (isOpened cap) then Raise ValueError
         else extract_loop output_dir frame_interval (video_frames cap) 0 [])
  with
  | Ok saved_frames => saved_frames
  | Raise _ => []
  end.

(** ** app.py: upload_video *)

Inductive UploadBody : Type :=
| UploadedBody (filename : string)          (* success True, the stored name *)
| UploadErrorBody (error_text : string)     (* success False, a fixed text *)
| UploadExceptionBody (e : PyExc).          (* success False, str(e) *)

Record UploadResponse : Type := mkUploadResponse {
  upload_code : Z;
  upload_body : UploadBody
}.

Definition upload_video (env : Env) (request : UploadRequest)
  : M UploadResponse :=
  try_except
    (match files_video request with
     | None =>
         ret (mkUploadResponse 400 (UploadErrorBody "No video file provided"))
     | Some (file_filename, content) =>
         if String.eqb file_filename ""
         then ret (mkUploadResponse 400 (UploadErrorBody "No file selected"))
         else if allowed_file env file_filename then
           let filename := now env ++ "_" ++ secure_filename env file_filename in
           let video_path := path_join UPLOAD_FOLDER filename in
           file_save env video_path content ;;
           ret (mkUploadResponse 200 (UploadedBody filename))
         else
           ret (mkUploadResponse 400
                  (UploadErrorBody
                     "Invalid file type. Allowed: mp4, avi, mov, mkv"))
     end)
    (fun e => ret (mkUploadResponse 500 (UploadExceptionBody e))).

(** ** Notions used to state further properties *)

(* the sum of the counts of a mapping *)
Definition sum_counts (d : dict Z) : Z := fold_right Z.add 0 (dict_values d).

(* the boxes of a frame that pass the vehicle filter *)
Definition vehicles_in (frame : Frame) : Z :=
  match detections frame with
  | Ok boxes => Z.of_nat (List.length (filter is_vehicle boxes))
  | Raise _ => 0
  end.

Definition vehicles_in_frames (frames : list Frame) : Z :=
  fold_right (fun frame total => vehicles_in frame + total) 0 frames.

Definition frame_detects (frame : Frame) : bool :=
  match detections frame with Ok _ => true | Raise _ => false end.

Definition frame_has_vehicle (frame : Frame) : bool :=
  match detections frame with
  | Ok boxes => existsb is_vehicle boxes
  | Raise _ => false
  end.

(* The files process_video_yolo gets through: the model loads, the file
   opens, and either there is no frame at all or the frame count is not 0,
   the detector answers on every frame and the first frame shows a vehicle
   (which assigns frame_width before the lane dividers read it). *)
Definition yolo_accepts (env : Env) (cap : Video) : bool :=
  (yolo_loads env && isOpened cap &&
   match video_frames cap with
   | [] => true
   | first :: _ =>
       negb (CAP_PROP_FRAME_COUNT cap =? 0) &&
       forallb frame_detects (video_frames cap) &&
       frame_has_vehicle first
   end)%bool.

(* the keys of the count mapping and of the state in app.py *)
Definition lane_keys : list string := ["laneA"; "laneB"; "laneC"; "laneD"].

(* the shape every published state of app.py has: the four lane keys in
   order, and at most one Green lane *)
Definition state_invariant (data : SignalState) : Prop :=
  dict_keys data = lane_keys /\ (List.length (green_lanes data) <= 1)%nat.

(* the detections of a list that name a lane *)
Definition detections_in (lane : string) (detections : list Detection) : Z :=
  Z.of_nat (List.length
              (filter (fun d => String.eqb (detection_lane d) lane)
                      detections)).

(* the draws of random.randint lie in the closed range asked for *)
Definition randint_in_range (env : Env) : Prop :=
  forall lo hi, lo <= hi -> lo <= randint env lo hi <= hi.

(* the counts of the canonical state with one lane set *)
Definition one_lane_counts (l : LaneId) (n : Z) : LaneId -> Z :=
  fun l' => if Z.eqb (lane_id_rank l') (lane_id_rank l) then n else 0.

(* '.' in s *)
Fixpoint contains_dot (s : string) : bool :=
  match s with
  | EmptyString => false
  | String c t => (Ascii.eqb c "."%char || contains_dot t)%bool
  end.

(* did a call of a processing function return a success dictionary *)
Definition succeeded (outcome : Result ProcessResult * World) : bool :=
  match fst outcome with
  | Ok result => success result
  | Raise _ => false
  end.

(* the locals process_video_yolo enters its frame loop with *)
Definition initial_locals : Locals :=
  mkLocals 0 [("laneA", 0); ("laneB", 0); ("laneC", 0); ("laneD", 0)] None.

(* does the frame loop run to its end: no frame, or a frame count other than
   0, an answer of the detector on every frame, and frame_width assigned
   before or by the first frame *)
Definition loop_completes (total_frames : Z) (frames : list Frame)
  (assigned : bool) : bool :=
  match frames with
  | [] => true
  | first :: _ =>
      (negb (total_frames =? 0) && forallb frame_detects frames &&
       (assigned || frame_has_vehicle first))%bool
  end.

(* text made of ASCII characters only *)
Fixpoint is_ascii_string (s : string) : bool :=
  match s with
  | EmptyString => true
  | String c t => (Nat.ltb (nat_of_ascii c) 128 && is_ascii_string t)%bool
  end.

(* what str.lower is on ASCII text *)
Definition lower_agrees_on_ascii (env : Env) : Prop :=
  forall s, is_ascii_string s = true -> str_lower env s = lower s.

(* the world in which process_video starts the processing step of an
   accepted upload: the file saved, the status processing, the progress 0 *)
Definition job_world (env : Env) (name : string) (content : Video) (w : World)
  : World :=
  mkWorld (current_video_data w) (mkStatus processing 0)
          (dict_set (uploads w) (video_path_of env name) content).

(** * Properties *)

Open Scope list_scope.

(** ** Dictionaries *)

Section DictFacts.
Context {V : Type}.
Implicit Types (d : dict V) (k : string) (v : V).

Lemma dict_get_none_iff d k :
  dict_get d k = None <-> ~ In k (dict_keys d).
Proof.
  induction d as [|[k' v'] t IH]; simpl.
  - tauto.
  - destruct (String.eqb_spec k' k) as [->|Hne].
    + split; [discriminate | intros H; elim H; now left].
    + rewrite IH. split.
      * intros H [E|E]; [congruence | tauto].
      * intros H E; apply H; now right.
Qed.

Lemma dict_get_in d k v :
  dict_wf d -> In (k, v) d -> dict_get d k = Some v.
Proof.
  unfold dict_wf.
  induction d as [|[k' v'] t IH]; simpl; intros Hwf Hin; [easy|].
  inversion Hwf as [|? ? Hnotin Hnd]; subst.
  destruct Hin as [E|Hin].
  - inversion E; subst. now rewrite String.eqb_refl.
  - destruct (String.eqb_spec k' k) as [->|Hne].
    + elim Hnotin. change (In (fst (k, v)) (map fst t)). now apply in_map.
    + now apply IH.
Qed.

Lemma dict_mem_true_iff d k :
  dict_mem k d = true <-> In k (dict_keys d).
Proof.
  unfold dict_mem. destruct (dict_get d k) eqn:E.
  - split; [intros _|easy].
    destruct (in_dec string_dec k (dict_keys d)) as [H|H]; [easy|].
    apply dict_get_none_iff in H. congruence.
  - apply dict_get_none_iff in E. split; [discriminate | tauto].
Qed.

Lemma dict_set_fresh d k v :
  ~ In k (dict_keys d) -> dict_set d k v = d ++ [(k, v)].
Proof.
  induction d as [|[k' v'] t IH]; simpl; intros H; [easy|].
  destruct (String.eqb_spec k' k) as [->|Hne].
  - elim H; now left.
  - rewrite IH; [easy | tauto].
Qed.

Lemma dict_keys_set_present d k v :
  In k (dict_keys d) -> dict_keys (dict_set d k v) = dict_keys d.
Proof.
  induction d as [|[k' v'] t IH]; simpl; intros H; [easy|].
  destruct (String.eqb_spec k' k) as [->|Hne]; simpl; [easy|].
  f_equal. apply IH. destruct H; [congruence | easy].
Qed.

Lemma dict_get_set_same d k v : dict_get (dict_set d k v) k = Some v.
Proof.
  induction d as [|[k' v'] t IH]; simpl.
  - now rewrite String.eqb_refl.
  - destruct (String.eqb_spec k' k) as [->|Hne]; simpl.
    + now rewrite String.eqb_refl.
    + destruct (String.eqb_spec k' k); [congruence | exact IH].
Qed.

Lemma dict_get_set_other d k k' v :
  k' <> k -> dict_get (dict_set d k v) k' = dict_get d k'.
Proof.
  intros Hne. induction d as [|[k0 v0] t IH]; simpl.
  - destruct (String.eqb_spec k k'); [congruence | easy].
  - destruct (String.eqb_spec k0 k) as [->|Hne0]; simpl.
    + destruct (String.eqb_spec k k'); [congruence | easy].
    + destruct (String.eqb_spec k0 k'); [easy | exact IH].
Qed.

Lemma dict_get_del_same d k :
  dict_wf d -> dict_get (dict_del d k) k = None.
Proof.
  unfold dict_wf.
  induction d as [|[k' v'] t IH]; simpl; intros Hwf; [easy|].
  inversion Hwf as [|? ? Hnotin Hnd]; subst.
  destruct (String.eqb_spec k' k) as [->|Hne]; simpl.
  - now apply dict_get_none_iff.
  - destruct (String.eqb_spec k' k); [congruence | now apply IH].
Qed.

Lemma dict_keys_set_incl d k v k' :
  In k' (dict_keys (dict_set d k v)) -> k' = k \/ In k' (dict_keys d).
Proof.
  induction d as [|[k0 v0] t IH]; simpl.
  - intros [E|[]]; now left.
  - destruct (String.eqb_spec k0 k) as [->|Hne]; simpl.
    + tauto.
    + intros [E|H]; [tauto|]. destruct (IH H); tauto.
Qed.

Lemma dict_wf_set d k v : dict_wf d -> dict_wf (dict_set d k v).
Proof.
  unfold dict_wf.
  induction d as [|[k0 v0] t IH]; simpl; intros Hwf.
  - constructor; [easy | constructor].
  - inversion Hwf as [|? ? Hnotin Hnd]; subst.
    destruct (String.eqb_spec k0 k) as [->|Hne]; simpl.
    + now constructor.
    + constructor; [|now apply IH].
      intros H. apply dict_keys_set_incl in H. destruct H; congruence.
Qed.

(* a loop that stores one value per item of a duplicate-free sequence
   appends the items in order *)
Lemma fold_set_append {B} (g : string * B -> V)
      (step : dict V -> string * B -> dict V) (items : list (string * B)) :
  (forall acc it, step acc it = dict_set acc (fst it) (g it)) ->
  forall acc,
    NoDup (dict_keys acc ++ map fst items) ->
    fold_left step items acc = acc ++ map (fun it => (fst it, g it)) items.
Proof.
  intros Hstep. induction items as [|it rest IH]; simpl; intros acc Hnd.
  - now rewrite app_nil_r.
  - rewrite Hstep. rewrite dict_set_fresh.
    + rewrite IH.
      * now rewrite <- app_assoc.
      * unfold dict_keys in *. rewrite map_app. simpl.
        rewrite <- app_assoc. exact Hnd.
    + apply NoDup_remove_2 in Hnd. intros H. apply Hnd.
      apply in_or_app. now left.
Qed.

(* d.update(other) when other has the keys of d in the same order *)
Lemma dict_update_same_keys d other :
  dict_wf d -> dict_keys other = dict_keys d -> dict_update d other = other.
Proof.
  unfold dict_update, dict_wf. revert other.
  assert (G : forall (done rest other : dict V),
             NoDup (dict_keys done ++ dict_keys rest) ->
             dict_keys other = dict_keys rest ->
             fold_left (fun acc kv => dict_set acc (fst kv) (snd kv)) other
                       (done ++ rest) = done ++ other).
  { intros done rest. revert done.
    induction rest as [|[k v] rest IH]; intros done other Hnd Hk.
    - destruct other; [easy | discriminate].
    - destruct other as [|[k' v'] other]; [discriminate|].
      simpl in Hk. inversion Hk; subst k'. simpl.
      assert (E : dict_set (done ++ (k, v) :: rest) k v'
                  = (done ++ [(k, v')]) ++ rest).
      { clear - Hnd. induction done as [|[k0 v0] done IHd]; simpl.
        - now rewrite String.eqb_refl.
        - destruct (String.eqb_spec k0 k) as [->|Hne].
          + simpl in Hnd. inversion Hnd as [|? ? Hnotin _]; subst.
            elim Hnotin. apply in_or_app. right. now left.
          + f_equal. apply IHd. simpl in Hnd. now inversion Hnd. }
      rewrite E. rewrite (IH (done ++ [(k, v')]) other).
      + now rewrite <- app_assoc.
      + unfold dict_keys in *. rewrite map_app. simpl.
        rewrite <- app_assoc. exact Hnd.
      + easy. }
  intros other Hwf Hk. apply (G [] d other); easy.
Qed.
End DictFacts.

(** ** The builtin max *)

Section MaxFacts.
Context {A : Type} (key : A -> Z).

(* The loop invariant of max: the items seen so far are [pre], all below
   the running maximum, then the running maximum, then [mid], none above
   it. *)
Lemma max_from_invariant (l pre mid : list A) (best : A) :
  (forall x, In x pre -> key x < key best) ->
  (forall x, In x mid -> key x <= key best) ->
  exists pre' post,
    pre ++ best :: mid ++ l = pre' ++ max_from key best l :: post /\
    (forall x, In x pre' -> key x < key (max_from key best l)) /\
    (forall x, In x post -> key x <= key (max_from key best l)).
Proof.
  revert pre mid best.
  induction l as [|x t IH]; intros pre mid best Hpre Hmid; simpl.
  - exists pre, mid. now rewrite app_nil_r.
  - destruct (Z.ltb_spec (key best) (key x)) as [Hlt|Hge].
    + destruct (IH (pre ++ best :: mid) [] x) as (pre' & post & E & H1 & H2).
      * intros y Hy. apply in_app_or in Hy.
        destruct Hy as [Hy|[<-|Hy]]; [|easy|].
        -- specialize (Hpre y Hy). lia.
        -- specialize (Hmid y Hy). lia.
      * easy.
      * exists pre', post. split; [|easy].
        rewrite <- E. rewrite <- app_assoc. reflexivity.
    + destruct (IH pre (mid ++ [x]) best) as (pre' & post & E & H1 & H2).
      * exact Hpre.
      * intros y Hy. apply in_app_or in Hy.
        destruct Hy as [Hy|[<-|[]]]; [now apply Hmid | easy].
      * exists pre', post. split; [|easy].
        rewrite <- E. rewrite <- app_assoc. reflexivity.
Qed.

(* max returns the first of the items with the largest key *)
Lemma max_from_first (best : A) (l : list A) :
  exists pre post,
    best :: l = pre ++ max_from key best l :: post /\
    (forall x, In x pre -> key x < key (max_from key best l)) /\
    (forall x, In x post -> key x <= key (max_from key best l)).
Proof.
  destruct (max_from_invariant l [] [] best) as (pre & post & E & H); try easy.
  now exists pre, post.
Qed.

Lemma max_from_in (best : A) (l : list A) :
  In (max_from key best l) (best :: l).
Proof.
  destruct (max_from_first best l) as (pre & post & E & _).
  rewrite E. apply in_or_app. right. now left.
Qed.

Lemma max_from_upper (best : A) (l : list A) (x : A) :
  In x (best :: l) -> key x <= key (max_from key best l).
Proof.
  destruct (max_from_first best l) as (pre & post & E & H1 & H2).
  rewrite E. intros H. apply in_app_or in H.
  destruct H as [H|[<-|H]].
  - specialize (H1 x H). lia.
  - lia.
  - now apply H2.
Qed.
End MaxFacts.

(* max over the values picks the value of the key max picks over the keys *)
Lemma max_from_map {A} (f : A -> Z) (best : A) (l : list A) :
  max_from (fun c => c) (f best) (map f l) = f (max_from f best l).
Proof.
  revert best. induction l as [|x t IH]; intros best; simpl; [easy|].
  destruct (f best <? f x); apply IH.
Qed.

Lemma counts_get_in (d : dict Z) (k : string) (c : Z) :
  dict_wf d -> In (k, c) d -> counts_get d k = c.
Proof.
  intros Hwf Hin. unfold counts_get. now rewrite (dict_get_in d k c).
Qed.

Lemma values_by_get (d : dict Z) :
  dict_wf d -> dict_values d = map (counts_get d) (dict_keys d).
Proof.
  intros Hwf. unfold dict_values, dict_keys. rewrite map_map.
  apply map_ext_in. intros [k c] Hin. simpl. symmetry.
  now apply counts_get_in.
Qed.

(** ** The timing decision *)

Lemma green_time_of_table (n : Z) : green_time_of n = Config.get_signal_timing n.
Proof.
  unfold green_time_of, Config.get_signal_timing, Config.DENSITY_low,
    Config.DENSITY_medium, Config.DENSITY_high, Config.BASE_GREEN_TIME,
    Config.MAX_GREEN_TIME, max_green_time, base_green_time.
  destruct (Z.ltb_spec 15 n), (Z.ltb_spec 10 n), (Z.ltb_spec 5 n),
    (Z.leb_spec n 5), (Z.leb_spec n 10), (Z.leb_spec n 15);
    try reflexivity; lia.
Qed.

(* counts A:8, B:4, C:20, D:9 : lane C Green for 30 s, the others Red/15 *)
Example timing_scenario_1 :
  calculate_signal_timing
    [("laneA", 8); ("laneB", 4); ("laneC", 20); ("laneD", 9)]
  = Ok published_data.
Proof. reflexivity. Qed.

Lemma timing_shape (vehicle_counts : dict Z) :
  dict_wf vehicle_counts -> vehicle_counts <> [] ->
  exists green_lane,
    chosen_lane vehicle_counts = Ok green_lane /\
    In green_lane (dict_keys vehicle_counts) /\
    calculate_signal_timing vehicle_counts
    = Ok (map (table_entry None None green_lane) vehicle_counts) /\
    SignalController.calculate_adaptive_timing vehicle_counts
    = Ok (map (table_entry (Some High) (Some Low) green_lane) vehicle_counts).
Proof.
  intros Hwf Hne.
  destruct vehicle_counts as [|[k0 c0] t] eqn:Evc; [easy|]. rewrite <- Evc in *.
  set (m := max_from (counts_get vehicle_counts) k0 (dict_keys t)).
  assert (Hin : In m (dict_keys vehicle_counts)).
  { rewrite Evc. apply (max_from_in (counts_get vehicle_counts) k0 (dict_keys t)). }
  assert (Hmax : max_from (fun c => c) c0 (dict_values t)
                 = counts_get vehicle_counts m).
  { pose proof (values_by_get vehicle_counts Hwf) as Hv.
    rewrite Evc in Hv at 1 3. simpl in Hv. injection Hv as Hc0 Hvt.
    rewrite Hc0, Hvt. apply max_from_map. }
  assert (Hentry : forall (hi lo : option Priority) (it : string * Z),
             In it vehicle_counts ->
             (fst it,
              if String.eqb (fst it) m
              then mkLaneData (snd it) Green
                     (green_time_of (counts_get vehicle_counts m)) hi
              else mkLaneData (snd it) Red 15 lo)
             = table_entry hi lo m it).
  { intros hi lo [k c] Hit. unfold table_entry. simpl.
    destruct (String.eqb_spec k m) as [->|Hkm]; [|easy].
    rewrite (counts_get_in vehicle_counts m c Hwf Hit).
    now rewrite green_time_of_table. }
  assert (Ekeys : forall key : string -> Z,
             py_max key (dict_keys vehicle_counts)
             = Ok (max_from key k0 (dict_keys t))).
  { intros key. now rewrite Evc. }
  pose proof (Ekeys (counts_get vehicle_counts)) as Ek. fold m in Ek.
  exists m. split; [exact Ek|]. split; [exact Hin|].
  unfold calculate_signal_timing, SignalController.calculate_adaptive_timing.
  assert (Ev : py_max (fun c => c) (dict_values vehicle_counts)
               = Ok (counts_get vehicle_counts m)).
  { rewrite Evc at 1. simpl. now rewrite Hmax. }
  rewrite Ek, Ev. simpl. split; f_equal.
  - rewrite (fold_set_append
               (fun it : string * Z =>
                  if String.eqb (fst it) m
                  then mkLaneData (snd it) Green
                         (green_time_of (counts_get vehicle_counts m)) None
                  else mkLaneData (snd it) Red 15 None)).
    + simpl. apply map_ext_in. intros it Hit. now apply Hentry.
    + intros acc [k c]. simpl. now destruct (String.eqb k m).
    + exact Hwf.
  - rewrite (fold_set_append
               (fun it : string * Z =>
                  if String.eqb (fst it) m
                  then mkLaneData (snd it) Green
                         (green_time_of (counts_get vehicle_counts m))
                         (Some High)
                  else mkLaneData (snd it) Red 15 (Some Low))).
    + simpl. apply map_ext_in. intros it Hit. now apply Hentry.
    + intros acc [k c]. simpl. now destruct (String.eqb k m).
    + exact Hwf.
Qed.

Lemma table_keys (hi lo : option Priority) (m : string) (d : dict Z) :
  dict_keys (map (table_entry hi lo m) d) = dict_keys d.
Proof.
  unfold dict_keys. rewrite map_map. now apply map_ext.
Qed.

Lemma table_green_lanes (hi lo : option Priority) (m : string) (d : dict Z) :
  dict_wf d -> In m (dict_keys d) ->
  green_lanes (map (table_entry hi lo m) d) = [m].
Proof.
  unfold dict_wf, green_lanes, dict_keys.
  assert (Hnone : forall t : dict Z,
             ~ In m (map fst t) ->
             map fst (filter (fun kv => is_green (snd kv))
                             (map (table_entry hi lo m) t)) = []).
  { induction t as [|[k c] t IHt]; simpl; intros Hn; [easy|].
    destruct (String.eqb_spec k m) as [->|Hkm]; [tauto|].
    simpl. apply IHt. tauto. }
  induction d as [|[k c] t IH]; simpl; intros Hnd Hin; [easy|].
  inversion Hnd as [|? ? Hnotin Hnd']; subst.
  destruct (String.eqb_spec k m) as [->|Hkm]; simpl.
  - f_equal. now apply Hnone.
  - apply IH; [easy|]. destruct Hin; [congruence | easy].
Qed.

Lemma fold_time_sum (l : list LaneData) (acc : Z) :
  fold_left (fun total_time lane_data => total_time + time lane_data) l acc
  = acc + fold_right (fun lane_data s => time lane_data + s) 0 l.
Proof.
  revert acc. induction l as [|x t IH]; intros acc; simpl; [lia|].
  rewrite IH. lia.
Qed.

Lemma table_cycle_time (hi lo : option Priority) (m : string) (d : dict Z) :
  dict_wf d -> In m (dict_keys d) ->
  SignalController.calculate_cycle_time (map (table_entry hi lo m) d)
  = Config.get_signal_timing (counts_get d m)
    + 15 * (Z.of_nat (List.length d) - 1).
Proof.
  intros Hwf Hin. unfold SignalController.calculate_cycle_time.
  rewrite fold_time_sum, Z.add_0_l. unfold dict_values.
  assert (Hred : forall t : dict Z,
             ~ In m (dict_keys t) ->
             fold_right (fun lane_data s => time lane_data + s) 0
               (map snd (map (table_entry hi lo m) t))
             = 15 * Z.of_nat (List.length t)).
  { induction t as [|[k c] t IHt]; intros Hn; [easy|].
    cbn [map fold_right List.length table_entry fst snd].
    cbn [dict_keys map fst] in Hn.
    destruct (String.eqb_spec k m) as [->|Hkm]; [elim Hn; now left|].
    rewrite IHt by (intros H; apply Hn; now right).
    cbn [time]. rewrite Nat2Z.inj_succ. lia. }
  revert Hwf Hin. unfold dict_wf.
  induction d as [|[k c] t IH]; intros Hnd Hin; [easy|].
  inversion Hnd as [|? ? Hnotin Hnd']; subst.
  cbn [map fold_right List.length table_entry fst snd].
  rewrite Nat2Z.inj_succ.
  destruct (String.eqb_spec k m) as [->|Hkm].
  - rewrite Hred by easy.
    unfold counts_get. cbn [dict_get time]. rewrite String.eqb_refl. lia.
  - assert (Hin' : In m (dict_keys t)).
    { destruct Hin as [E|H]; [simpl in E; congruence | exact H]. }
    rewrite (IH Hnd' Hin').
    unfold counts_get. cbn [dict_get time].
    destruct (String.eqb_spec k m); [congruence|]. lia.
Qed.

Lemma chosen_lane_first (vehicle_counts : dict Z) (m : string) :
  dict_wf vehicle_counts ->
  chosen_lane vehicle_counts = Ok m ->
  exists pre n post,
    vehicle_counts = pre ++ (m, n) :: post /\
    (forall it, In it pre -> snd it < n) /\
    (forall it, In it post -> snd it <= n).
Proof.
  intros Hwf Hm. unfold chosen_lane in Hm.
  destruct (dict_keys vehicle_counts) as [|k0 ks] eqn:Ek; [discriminate|].
  simpl in Hm. injection Hm as Hm.
  destruct (max_from_first (counts_get vehicle_counts) k0 ks)
    as (pk & qk & E & Hpre & Hpost).
  rewrite Hm in E, Hpre, Hpost. rewrite <- Ek in E. unfold dict_keys in E.
  apply map_eq_app in E. destruct E as (pre & rest & Evc & Epre & Erest).
  apply map_eq_cons in Erest.
  destruct Erest as ([m' n] & post & Erest & Em & Epost).
  simpl in Em. subst m' rest.
  assert (Hn : counts_get vehicle_counts m = n).
  { apply counts_get_in; [exact Hwf|]. rewrite Evc.
    apply in_or_app. right. now left. }
  exists pre, n, post. split; [exact Evc|]. rewrite <- Hn. split.
  - intros [k c] Hit. simpl.
    rewrite <- (counts_get_in vehicle_counts k c Hwf).
    + apply Hpre. rewrite <- Epre. change k with (fst (k, c)). now apply in_map.
    + rewrite Evc. apply in_or_app. now left.
  - intros [k c] Hit. simpl.
    rewrite <- (counts_get_in vehicle_counts k c Hwf).
    + apply Hpost. rewrite <- Epost. change k with (fst (k, c)).
      now apply in_map.
    + rewrite Evc. apply in_or_app. right. now right.
Qed.

(* the four cases of max over a mapping written in ascending lane order *)
Lemma chosen_lane_ascending (name : LaneId -> string) (c : LaneId -> Z) :
  (forall l l', name l = name l' -> l = l') ->
  chosen_lane (ascending_counts name c) = Ok (name (spec_priority_lane c)).
Proof.
  intros Hinj.
  assert (Hget : forall l, counts_get (ascending_counts name c) (name l) = c l).
  { intros l. unfold counts_get, ascending_counts. cbn [dict_get].
    assert (Hneq : forall a b, a <> b -> String.eqb (name a) (name b) = false).
    { intros a b Hab. apply String.eqb_neq. intros E. apply Hab.
      now apply Hinj. }
    destruct l;
      repeat (rewrite String.eqb_refl || rewrite Hneq by discriminate);
      reflexivity. }
  unfold chosen_lane, ascending_counts. cbn [dict_keys map fst py_max max_from].
  fold (ascending_counts name c). rewrite !Hget.
  unfold spec_priority_lane.
  destruct (Z.ltb_spec (c LaneA) (c LaneB));
    rewrite ?Hget;
    destruct (Z.ltb_spec (c LaneA) (c LaneC));
    destruct (Z.ltb_spec (c LaneB) (c LaneC));
    rewrite ?Hget;
    destruct (Z.ltb_spec (c LaneA) (c LaneD));
    destruct (Z.ltb_spec (c LaneB) (c LaneD));
    destruct (Z.ltb_spec (c LaneC) (c LaneD));
    try lia;
    repeat match goal with
      | |- context [Z.eqb ?a ?b] => destruct (Z.eqb_spec a b)
      end; try reflexivity; lia.
Qed.

Lemma lane_key_injective (l l' : LaneId) : lane_key l = lane_key l' -> l = l'.
Proof. destruct l, l'; intros H; try reflexivity; discriminate H. Qed.

Lemma lane_name_injective (l l' : LaneId) : lane_name l = lane_name l' -> l = l'.
Proof. destruct l, l'; intros H; try reflexivity; discriminate H. Qed.

Lemma ascending_counts_wf (name : LaneId -> string) (c : LaneId -> Z) :
  (forall l l', name l = name l' -> l = l') ->
  dict_wf (ascending_counts name c).
Proof.
  intros Hinj. unfold dict_wf, ascending_counts. cbn [dict_keys map fst].
  repeat constructor; cbn [In];
    intros H; repeat destruct H as [H|H]; try exact H;
    apply Hinj in H; discriminate H.
Qed.

(* the specification's priority lane has the largest count, and no lane with
   that count has a smaller identifier *)
Lemma spec_priority_lane_sound (c : LaneId -> Z) (l : LaneId) :
  c l <= c (spec_priority_lane c) /\
  (c l = c (spec_priority_lane c) ->
   lane_id_rank (spec_priority_lane c) <= lane_id_rank l).
Proof.
  unfold spec_priority_lane.
  repeat match goal with
    | |- context [Z.eqb ?a ?b] => destruct (Z.eqb_spec a b)
    end; destruct l; cbn [lane_id_rank]; lia.
Qed.

(** C1: for every non-empty count mapping, calculate_signal_timing and
    calculate_adaptive_timing return a state with exactly one Green lane,
    whose duration is the step function of its own count (at most 5: 15 s,
    6 to 10: 20 s, 11 to 15: 25 s, above 15: 30 s), every other lane Red with
    duration 15, and the cycle time of that state is the Green duration plus
    15 for each of the other lanes. *)
Theorem C1_one_green_lane_timed_by_table (vehicle_counts : dict Z) :
  dict_wf vehicle_counts ->
  vehicle_counts <> [] ->
  meets_timing_table None None vehicle_counts
    (calculate_signal_timing vehicle_counts) /\
  meets_timing_table (Some High) (Some Low) vehicle_counts
    (SignalController.calculate_adaptive_timing vehicle_counts).
Proof.
  intros Hwf Hne.
  destruct (timing_shape vehicle_counts Hwf Hne) as (m & _ & Hin & Happ & Hutil).
  split.
  - exists (map (table_entry None None m) vehicle_counts), m.
    repeat split; try easy.
    + now apply table_green_lanes.
    + now apply table_cycle_time.
  - exists (map (table_entry (Some High) (Some Low) m) vehicle_counts), m.
    repeat split; try easy.
    + now apply table_green_lanes.
    + now apply table_cycle_time.
Qed.

Lemma C1_witness :
  let vehicle_counts :=
    [("laneA", 8); ("laneB", 4); ("laneC", 20); ("laneD", 9)] in
  dict_wf vehicle_counts /\
  vehicle_counts <> [] /\
  meets_timing_table None None vehicle_counts
    (calculate_signal_timing vehicle_counts) /\
  meets_timing_table (Some High) (Some Low) vehicle_counts
    (SignalController.calculate_adaptive_timing vehicle_counts).
Proof.
  intros vehicle_counts.
  assert (Hwf : dict_wf vehicle_counts).
  { apply (ascending_counts_wf lane_key
             (fun l => match l with
                       | LaneA => 8 | LaneB => 4 | LaneC => 20 | LaneD => 9
                       end)).
    exact lane_key_injective. }
  assert (Hne : vehicle_counts <> []) by discriminate.
  split; [exact Hwf|]. split; [exact Hne|].
  exact (C1_one_green_lane_timed_by_table vehicle_counts Hwf Hne).
Defined.

(** C2, as amended: the Green lane is the first lane, in the iteration order
    of the mapping, whose count is the maximum: every lane before it has a
    strictly smaller count and no lane after it a larger one. For a mapping
    written in ascending order A, B, C, D this is the lane with the maximum
    count and, among ties, the smallest lane identifier; in particular the
    counts A:10, B:10, C:5, D:5 turn lane A Green. *)
Theorem C2_green_lane_is_first_maximum
  (vehicle_counts : dict Z) (c : LaneId -> Z) :
  dict_wf vehicle_counts ->
  vehicle_counts <> [] ->
  (exists pre lane n post,
      vehicle_counts = pre ++ (lane, n) :: post /\
      (forall it, In it pre -> snd it < n) /\
      (forall it, In it post -> snd it <= n) /\
      result_green_lanes (calculate_signal_timing vehicle_counts)
      = Ok [lane] /\
      result_green_lanes
        (SignalController.calculate_adaptive_timing vehicle_counts)
      = Ok [lane]) /\
  result_green_lanes (calculate_signal_timing (ascending_counts lane_key c))
  = Ok [lane_key (spec_priority_lane c)] /\
  result_green_lanes
    (SignalController.calculate_adaptive_timing (ascending_counts lane_name c))
  = Ok [lane_name (spec_priority_lane c)] /\
  result_green_lanes
    (SignalController.calculate_adaptive_timing
       [("A", 10); ("B", 10); ("C", 5); ("D", 5)])
  = Ok ["A"].
Proof.
  intros Hwf Hne.
  assert (Hgreen : forall d m,
             dict_wf d -> d <> [] -> chosen_lane d = Ok m ->
             result_green_lanes (calculate_signal_timing d) = Ok [m] /\
             result_green_lanes (SignalController.calculate_adaptive_timing d)
             = Ok [m]).
  { intros d m Hd Hd0 Hm.
    destruct (timing_shape d Hd Hd0) as (m' & Hm' & Hin & Happ & Hutil).
    assert (m' = m) by congruence. subst m'.
    rewrite Happ, Hutil. unfold result_green_lanes, rbind.
    now rewrite !table_green_lanes. }
  split; [|split; [|split]].
  - destruct (timing_shape vehicle_counts Hwf Hne) as (m & Hm & _).
    destruct (chosen_lane_first vehicle_counts m Hwf Hm)
      as (pre & n & post & E & Hpre & Hpost).
    exists pre, m, n, post.
    destruct (Hgreen vehicle_counts m Hwf Hne Hm) as [Ha Hu]. easy.
  - apply Hgreen.
    + apply ascending_counts_wf, lane_key_injective.
    + discriminate.
    + apply chosen_lane_ascending, lane_key_injective.
  - apply Hgreen.
    + apply ascending_counts_wf, lane_name_injective.
    + discriminate.
    + apply chosen_lane_ascending, lane_name_injective.
  - reflexivity.
Qed.

Lemma C2_witness :
  let vehicle_counts := tie_b_first lane_name in
  dict_wf vehicle_counts /\
  vehicle_counts <> [] /\
  (exists pre lane n post,
      vehicle_counts = pre ++ (lane, n) :: post /\
      (forall it, In it pre -> snd it < n) /\
      (forall it, In it post -> snd it <= n) /\
      result_green_lanes (calculate_signal_timing vehicle_counts)
      = Ok [lane] /\
      result_green_lanes
        (SignalController.calculate_adaptive_timing vehicle_counts)
      = Ok [lane]) /\
  result_green_lanes
    (calculate_signal_timing (ascending_counts lane_key tie_example))
  = Ok ["laneA"].
Proof.
  intros vehicle_counts.
  assert (Hwf : dict_wf vehicle_counts).
  { unfold dict_wf, vehicle_counts, tie_b_first. cbn [dict_keys map fst lane_name].
    repeat constructor; cbn [In];
      intros H; repeat destruct H as [H|H]; try exact H; discriminate H. }
  assert (Hne : vehicle_counts <> []) by discriminate.
  split; [exact Hwf|]. split; [exact Hne|].
  destruct (C2_green_lane_is_first_maximum vehicle_counts tie_example Hwf Hne)
    as (Hfirst & Hkey & _).
  split; [exact Hfirst | exact Hkey].
Defined.

(** C2 as stated fails: with the tie between A and B written B first, both
    timing functions turn lane B Green, while the lane with the maximum count
    and the smallest identifier is A. *)
Lemma C2_counterexample_tie_follows_insertion_order :
  dict_wf (tie_b_first lane_name) /\
  (forall l, In (lane_name l) (dict_keys (tie_b_first lane_name))) /\
  spec_priority_lane (counts_by_lane lane_name (tie_b_first lane_name))
  = LaneA /\
  result_green_lanes
    (SignalController.calculate_adaptive_timing (tie_b_first lane_name))
  = Ok ["B"] /\
  spec_priority_lane (counts_by_lane lane_key (tie_b_first lane_key))
  = LaneA /\
  result_green_lanes (calculate_signal_timing (tie_b_first lane_key))
  = Ok ["laneB"].
Proof.
  split.
  - unfold dict_wf, tie_b_first. cbn [dict_keys map fst lane_name].
    repeat constructor; cbn [In];
      intros H; repeat destruct H as [H|H]; try exact H; discriminate H.
  - split.
    + intros l. destruct l; cbn; tauto.
    + repeat split; reflexivity.
Qed.

(** C4, as amended: the timing functions fail only on the empty mapping,
    where max raises ValueError; on every non-empty mapping, whatever its
    key set, they return a signal state. *)
Theorem C4_timing_fails_only_on_empty (vehicle_counts : dict Z) :
  (calculate_signal_timing vehicle_counts = Raise ValueError
   <-> vehicle_counts = []) /\
  (SignalController.calculate_adaptive_timing vehicle_counts = Raise ValueError
   <-> vehicle_counts = []) /\
  is_ok (calculate_signal_timing vehicle_counts)
  = negb (Nat.eqb (List.length vehicle_counts) 0) /\
  is_ok (SignalController.calculate_adaptive_timing vehicle_counts)
  = negb (Nat.eqb (List.length vehicle_counts) 0).
Proof.
  destruct vehicle_counts as [|[k0 c0] t].
  - repeat split; reflexivity.
  - unfold calculate_signal_timing, SignalController.calculate_adaptive_timing.
    cbn [dict_values dict_keys map py_max rbind is_ok List.length Nat.eqb negb].
    repeat split; try discriminate; reflexivity.
Qed.

(** C4 as stated fails: a mapping whose key set is not the four lanes gets
    a normal signal state. *)
Lemma C4_counterexample_foreign_keys_accepted :
  calculate_signal_timing [("X", 3)]
  = Ok [("X", mkLaneData 3 Green 15 None)] /\
  SignalController.calculate_adaptive_timing [("A", 7); ("B", 2)]
  = Ok [("A", mkLaneData 7 Green 20 (Some High));
        ("B", mkLaneData 2 Red 15 (Some Low))].
Proof. split; reflexivity. Qed.

(** ** Lane classification *)

Lemma Qltb_spec (x y : Q) : reflect (x < y)%Q (Qltb x y).
Proof.
  unfold Qltb. destruct (Qle_bool y x) eqn:E; simpl; constructor.
  - apply Qle_bool_iff in E. now apply Qle_not_lt.
  - apply Qnot_le_lt. intros H. apply Qle_bool_iff in H. congruence.
Qed.

(* the lane of x, given the lane width *)
Lemma determine_lane_eq (x : Q) (frame_width num_lanes : Z) :
  num_lanes <> 0 ->
  LaneDetector.determine_lane x frame_width num_lanes
  = Ok (let lane_width := frame_width / num_lanes in
        if Qltb x (inject_Z lane_width) then "A"
        else if Qltb x (inject_Z (lane_width * 2)) then "B"
        else if Qltb x (inject_Z (lane_width * 3)) then "C"
        else "D").
Proof.
  intros Hn. unfold LaneDetector.determine_lane.
  destruct (Z.eqb_spec num_lanes 0); [contradiction | reflexivity].
Qed.

Lemma lanes_monotone (w : Z) (x x' : Q) :
  (x <= x')%Q ->
  lane_rank (if Qltb x (inject_Z w) then "A"
             else if Qltb x (inject_Z (w * 2)) then "B"
             else if Qltb x (inject_Z (w * 3)) then "C"
             else "D")
  <= lane_rank (if Qltb x' (inject_Z w) then "A"
                else if Qltb x' (inject_Z (w * 2)) then "B"
                else if Qltb x' (inject_Z (w * 3)) then "C"
                else "D").
Proof.
  intros Hx.
  assert (H12 : 0 <= w -> (inject_Z w <= inject_Z (w * 2))%Q).
  { intros Hw. rewrite <- Zle_Qle. lia. }
  assert (H23 : 0 <= w -> (inject_Z (w * 2) <= inject_Z (w * 3))%Q).
  { intros Hw. rewrite <- Zle_Qle. lia. }
  assert (H21 : w < 0 -> (inject_Z (w * 2) <= inject_Z w)%Q).
  { intros Hw. rewrite <- Zle_Qle. lia. }
  assert (H31 : w < 0 -> (inject_Z (w * 3) <= inject_Z w)%Q).
  { intros Hw. rewrite <- Zle_Qle. lia. }
  destruct (Z.lt_ge_cases w 0) as [Hneg|Hpos];
    [specialize (H21 Hneg); specialize (H31 Hneg); clear H12 H23
    |specialize (H12 Hpos); specialize (H23 Hpos); clear H21 H31];
    destruct (Qltb_spec x (inject_Z w)) as [A1|A1];
    destruct (Qltb_spec x (inject_Z (w * 2))) as [A2|A2];
    destruct (Qltb_spec x (inject_Z (w * 3))) as [A3|A3];
    destruct (Qltb_spec x' (inject_Z w)) as [B1|B1];
    destruct (Qltb_spec x' (inject_Z (w * 2))) as [B2|B2];
    destruct (Qltb_spec x' (inject_Z (w * 3))) as [B3|B3];
    cbn; try lia; exfalso;
    repeat match goal with
      | H : ~ (_ < _)%Q |- _ => apply Qnot_lt_le in H
      end;
    repeat match goal with
      | H : (?a < ?b)%Q |- _ => revert H
      | H : (?a <= ?b)%Q |- _ => revert H
      end;
    generalize (inject_Z w) (inject_Z (w * 2)) (inject_Z (w * 3));
    intros; lra.
Qed.

Lemma lane_in_LANES (w : Z) (x : Q) :
  In (if Qltb x (inject_Z w) then "A"
      else if Qltb x (inject_Z (w * 2)) then "B"
      else if Qltb x (inject_Z (w * 3)) then "C"
      else "D") Config.LANES.
Proof.
  destruct (Qltb x (inject_Z w)), (Qltb x (inject_Z (w * 2))),
    (Qltb x (inject_Z (w * 3))); cbn; tauto.
Qed.

(* where the coordinate x = lane_width itself goes *)
Lemma boundary_lane (w : Z) :
  0 <= w ->
  (if Qltb (inject_Z w) (inject_Z w) then "A"
   else if Qltb (inject_Z w) (inject_Z (w * 2)) then "B"
   else if Qltb (inject_Z w) (inject_Z (w * 3)) then "C"
   else "D")
  = if 1 <=? w then "B" else "D".
Proof.
  intros Hw.
  destruct (Qltb_spec (inject_Z w) (inject_Z w)) as [H1|H1].
  - rewrite <- Zlt_Qlt in H1. lia.
  - destruct (Qltb_spec (inject_Z w) (inject_Z (w * 2))) as [H2|H2];
      destruct (Qltb_spec (inject_Z w) (inject_Z (w * 3))) as [H3|H3];
      rewrite <- Zlt_Qlt in H2, H3;
      destruct (Z.leb_spec 1 w); try reflexivity; lia.
Qed.

(** C5, as amended: for every frame width above 0 and the four lanes,
    determine_lane (and Config.get_lane_from_coordinates, which computes the
    same lane) returns a lane for every x >= 0 and is non-decreasing in x in
    the order A < B < C < D; the boundary coordinate x = lane_width is never
    put in lane A, and it is put in lane B exactly when the lane width is at
    least 1, that is for frame widths from 4 on; for the frame widths 1 to 3
    the lane width is 0 and the boundary goes to lane D. *)
Theorem C5_classify_total_monotone_boundary
  (frame_width : Z) (x x' : Q) :
  0 < frame_width ->
  (0 <= x)%Q ->
  (x <= x')%Q ->
  exists lane lane',
    LaneDetector.determine_lane_default x frame_width = Ok lane /\
    LaneDetector.determine_lane_default x' frame_width = Ok lane' /\
    Config.get_lane_from_coordinates x frame_width = lane /\
    Config.get_lane_from_coordinates x' frame_width = lane' /\
    In lane Config.LANES /\
    lane_rank lane <= lane_rank lane' /\
    LaneDetector.determine_lane_default (inject_Z (frame_width / 4)) frame_width
    = Ok (if 4 <=? frame_width then "B" else "D").
Proof.
  intros Hfw Hx Hxx'.
  unfold LaneDetector.determine_lane_default.
  rewrite !determine_lane_eq by discriminate. cbv zeta.
  eexists. eexists.
  split; [reflexivity|]. split; [reflexivity|].
  split; [reflexivity|]. split; [reflexivity|].
  split; [apply lane_in_LANES|]. split; [now apply lanes_monotone|].
  f_equal. rewrite boundary_lane by (apply Z.div_pos; lia).
  destruct (Z.leb_spec 1 (frame_width / 4)) as [H|H];
    destruct (Z.leb_spec 4 frame_width) as [H'|H']; try reflexivity.
  - rewrite Z.div_small in H by lia. lia.
  - assert (4 / 4 <= frame_width / 4) by (apply Z.div_le_mono; lia).
    change (4 / 4) with 1 in *. lia.
Qed.

Lemma C5_witness :
  0 < 640 /\ (0 <= 160)%Q /\ (160 <= 200)%Q /\
  exists lane lane',
    LaneDetector.determine_lane_default 160 640 = Ok lane /\
    LaneDetector.determine_lane_default 200 640 = Ok lane' /\
    Config.get_lane_from_coordinates 160 640 = lane /\
    Config.get_lane_from_coordinates 200 640 = lane' /\
    In lane Config.LANES /\
    lane_rank lane <= lane_rank lane' /\
    LaneDetector.determine_lane_default (inject_Z (640 / 4)) 640
    = Ok (if 4 <=? 640 then "B" else "D").
Proof.
  assert (H1 : 0 < 640) by lia.
  assert (H2 : (0 <= 160)%Q) by (unfold Qle; simpl; lia).
  assert (H3 : (160 <= 200)%Q) by (unfold Qle; simpl; lia).
  split; [exact H1|]. split; [exact H2|]. split; [exact H3|].
  exact (C5_classify_total_monotone_boundary 640 160 200 H1 H2 H3).
Defined.

(** C5 as stated fails: with frame width 3 the lane width is 0, and the
    boundary coordinate x = lane_width = 0 is put in lane D, not lane B. *)
Lemma C5_counterexample_narrow_frame :
  0 < 3 /\
  LaneDetector.determine_lane_default (inject_Z (3 / 4)) 3 = Ok "D" /\
  Config.get_lane_from_coordinates (inject_Z (3 / 4)) 3 = "D" /\
  LaneDetector.determine_lane_default (inject_Z (3 / 4)) 3 <> Ok "B".
Proof.
  split; [lia|]. split; [reflexivity|]. split; [reflexivity|]. discriminate.
Qed.

(** C6, as amended: determine_lane fails only when num_lanes is 0, where the
    floor division raises ZeroDivisionError; for every frame width and every
    other lane count, positive or not, it returns one of the lanes A to D,
    and Config.get_lane_from_coordinates, whose lane count is the constant 4,
    always returns a lane. With a frame width of 0 or less and the four
    lanes, every x >= 0 is put in lane D. *)
Theorem C6_classify_fails_only_on_zero_lane_count
  (x : Q) (frame_width num_lanes : Z) :
  (LaneDetector.determine_lane x frame_width num_lanes
   = Raise ZeroDivisionError <-> num_lanes = 0) /\
  (num_lanes <> 0 ->
   exists lane,
     LaneDetector.determine_lane x frame_width num_lanes = Ok lane /\
     In lane Config.LANES) /\
  In (Config.get_lane_from_coordinates x frame_width) Config.LANES /\
  (frame_width <= 0 -> (0 <= x)%Q ->
   LaneDetector.determine_lane_default x frame_width = Ok "D" /\
   Config.get_lane_from_coordinates x frame_width = "D").
Proof.
  split; [|split; [|split]].
  - unfold LaneDetector.determine_lane.
    destruct (Z.eqb_spec num_lanes 0); split; try easy.
  - intros Hn. rewrite determine_lane_eq by exact Hn. cbv zeta.
    eexists. split; [reflexivity | apply lane_in_LANES].
  - apply lane_in_LANES.
  - intros Hfw Hx.
    assert (Hw : frame_width / 4 <= 0).
    { apply Z.div_le_upper_bound; lia. }
    assert (E : (if Qltb x (inject_Z (frame_width / 4)) then "A"
                 else if Qltb x (inject_Z (frame_width / 4 * 2)) then "B"
                 else if Qltb x (inject_Z (frame_width / 4 * 3)) then "C"
                 else "D") = "D").
    { assert (H0 : forall k, 0 <= k ->
                 Qltb x (inject_Z (frame_width / 4 * k)) = false).
      { intros k Hk.
        destruct (Qltb_spec x (inject_Z (frame_width / 4 * k))) as [H|H];
          [|reflexivity].
        exfalso. apply (Qle_not_lt _ _ Hx).
        apply (Qlt_le_trans _ _ _ H).
        change 0%Q with (inject_Z 0). rewrite <- Zle_Qle. nia. }
      pose proof (H0 1) as H1. rewrite Z.mul_1_r in H1.
      rewrite H1, (H0 2), (H0 3) by lia. reflexivity. }
    split.
    + unfold LaneDetector.determine_lane_default.
      rewrite determine_lane_eq by discriminate. cbv zeta. now rewrite E.
    + exact E.
Qed.

(** C6 as stated fails: with a frame width of 0, or a negative one, or a
    negative lane count, determine_lane returns a lane. *)
Lemma C6_counterexample_nonpositive_width_returns_lane :
  LaneDetector.determine_lane 10 0 4 = Ok "D" /\
  LaneDetector.determine_lane 10 (-640) 4 = Ok "D" /\
  LaneDetector.determine_lane 10 640 (-4) = Ok "D" /\
  Config.get_lane_from_coordinates 10 0 = "D".
Proof. repeat split; reflexivity. Qed.

(** ** The statements of the handlers and processing_status *)

Section IgnoresStatus.
Context {A B : Type}.

Lemma ignores_ret (a : A) : ignores_status (ret a).
Proof. intros w1 w2 H. now split. Qed.

Lemma ignores_raise (e : PyExc) : ignores_status (@raise A e).
Proof. intros w1 w2 H. now split. Qed.

Lemma ignores_lift (r : Result A) : ignores_status (lift r).
Proof. intros w1 w2 H. now split. Qed.

Lemma ignores_bind (m : M A) (k : A -> M B) :
  ignores_status m -> (forall a, ignores_status (k a)) ->
  ignores_status (bind m k).
Proof.
  intros Hm Hk w1 w2 H. unfold bind.
  destruct (Hm w1 w2 H) as [Hr Hw].
  destruct (m w1) as [[a1|e1] w1'], (m w2) as [[a2|e2] w2'];
    simpl in Hr, Hw; try discriminate.
  - injection Hr as <-. now apply Hk.
  - injection Hr as <-. simpl. split; [reflexivity | exact Hw].
Qed.

Lemma ignores_try (body : M A) (handler : PyExc -> M A) :
  ignores_status body -> (forall e, ignores_status (handler e)) ->
  ignores_status (try_except body handler).
Proof.
  intros Hm Hk w1 w2 H. unfold try_except.
  destruct (Hm w1 w2 H) as [Hr Hw].
  destruct (body w1) as [[a1|e1] w1'], (body w2) as [[a2|e2] w2'];
    simpl in Hr, Hw; try discriminate.
  - simpl. split; [exact Hr | exact Hw].
  - injection Hr as <-. now apply Hk.
Qed.
End IgnoresStatus.

Lemma ignores_set_status (s : Status) : ignores_status (set_status s).
Proof. intros w1 w2 H. now split. Qed.

Lemma ignores_set_progress (p : Z) : ignores_status (set_progress p).
Proof. intros w1 w2 H. now split. Qed.

Lemma ignores_set_current_video_data (s : SignalState) :
  ignores_status (set_current_video_data s).
Proof. intros w1 w2 [H1 H2]. now repeat split. Qed.

Lemma ignores_set_uploads (u : dict Video) : ignores_status (set_uploads u).
Proof. intros w1 w2 [H1 H2]. now repeat split. Qed.

Lemma ignores_read_uploads : ignores_status read_uploads.
Proof. intros w1 w2 [H1 H2]. simpl. now rewrite H2. Qed.

Lemma ignores_read_current_video_data :
  ignores_status read_current_video_data.
Proof. intros w1 w2 [H1 H2]. simpl. now rewrite H1. Qed.

Lemma ignores_for_each {A} (xs : list A) (body : A -> M unit) :
  (forall x, ignores_status (body x)) -> ignores_status (for_each xs body).
Proof.
  intros Hb. induction xs as [|x rest IH]; simpl.
  - apply ignores_ret.
  - apply ignores_bind; [apply Hb | intros _; exact IH].
Qed.

Create HintDb ignores.
#[local] Hint Resolve ignores_ret ignores_raise ignores_lift
  ignores_set_status ignores_set_progress ignores_set_current_video_data
  ignores_set_uploads ignores_read_uploads ignores_read_current_video_data
  : ignores.

(* takes a statement apart along binds, handlers and branches *)
Ltac ignores_step :=
  match goal with
  | |- ignores_status (bind _ _) => apply ignores_bind; [|intros ?]
  | |- ignores_status (try_except _ _) => apply ignores_try; [|intros ?]
  | |- ignores_status (for_each _ _) => apply ignores_for_each; intros ?
  | |- ignores_status (if ?b then _ else _) => destruct b
  | |- ignores_status (match ?x with _ => _ end) => destruct x
  | |- ignores_status _ => solve [auto with ignores]
  end.

Lemma ignores_frame_loop (env : Env) (total_frames : Z) (frames : list Frame) :
  forall locals, ignores_status (frame_loop env total_frames frames locals).
Proof.
  induction frames as [|frame rest IH]; intros locals; simpl.
  - apply ignores_ret.
  - repeat ignores_step.
Qed.

Lemma ignores_process_video_dummy (env : Env) (video_path : string) :
  ignores_status (process_video_dummy env video_path).
Proof. unfold process_video_dummy. repeat ignores_step. Qed.

Lemma ignores_process_video_yolo (env : Env) (video_path : string) :
  ignores_status (process_video_yolo env video_path).
Proof.
  unfold process_video_yolo.
  destruct (negb (YOLO_AVAILABLE env)); [apply ignores_process_video_dummy|].
  repeat first [apply ignores_frame_loop | ignores_step].
Qed.

Lemma ignores_process_video (env : Env) (request : UploadRequest) :
  ignores_status (process_video env request).
Proof.
  unfold process_video, file_save, os_path_exists, os_remove.
  repeat first [apply ignores_process_video_yolo
               | apply ignores_process_video_dummy
               | ignores_step].
Qed.

(** ** The processing functions write only the progress and never raise *)

Lemma only_progress_refl (w : World) : only_progress w w.
Proof. now repeat split. Qed.

Lemma only_progress_trans (w1 w2 w3 : World) :
  only_progress w1 w2 -> only_progress w2 w3 -> only_progress w1 w3.
Proof.
  intros (A1 & A2 & A3) (B1 & B2 & B3). repeat split; congruence.
Qed.

Section WritesOnlyProgress.
Context {A B : Type}.

Lemma wop_ret (a : A) : writes_only_progress (ret a).
Proof. intros w. apply only_progress_refl. Qed.

Lemma wop_raise (e : PyExc) : writes_only_progress (@raise A e).
Proof. intros w. apply only_progress_refl. Qed.

Lemma wop_lift (r : Result A) : writes_only_progress (lift r).
Proof. intros w. apply only_progress_refl. Qed.

Lemma wop_bind (m : M A) (k : A -> M B) :
  writes_only_progress m -> (forall a, writes_only_progress (k a)) ->
  writes_only_progress (bind m k).
Proof.
  intros Hm Hk w. unfold bind. specialize (Hm w).
  destruct (m w) as [[a|e] w']; simpl in Hm.
  - apply (only_progress_trans w w'); [exact Hm | apply Hk].
  - exact Hm.
Qed.

Lemma wop_try (body : M A) (handler : PyExc -> M A) :
  writes_only_progress body -> (forall e, writes_only_progress (handler e)) ->
  writes_only_progress (try_except body handler).
Proof.
  intros Hm Hk w. unfold try_except. specialize (Hm w).
  destruct (body w) as [[a|e] w']; simpl in Hm.
  - exact Hm.
  - apply (only_progress_trans w w'); [exact Hm | apply Hk].
Qed.

Lemma never_raises_try (body : M A) (handler : PyExc -> M A) :
  (forall e, never_raises (handler e)) ->
  never_raises (try_except body handler).
Proof.
  intros Hk w. unfold try_except.
  destruct (body w) as [[a|e] w']; [now exists a | apply Hk].
Qed.
End WritesOnlyProgress.

Lemma wop_set_progress (p : Z) : writes_only_progress (set_progress p).
Proof. intros w. now repeat split. Qed.

Lemma wop_read_uploads : writes_only_progress read_uploads.
Proof. intros w. apply only_progress_refl. Qed.

Lemma wop_for_each {A} (xs : list A) (body : A -> M unit) :
  (forall x, writes_only_progress (body x)) ->
  writes_only_progress (for_each xs body).
Proof.
  intros Hb. induction xs as [|x rest IH]; simpl.
  - apply wop_ret.
  - apply wop_bind; [apply Hb | intros _; exact IH].
Qed.

Create HintDb wop.
#[local] Hint Resolve wop_ret wop_raise wop_lift wop_set_progress
  wop_read_uploads : wop.

Ltac wop_step :=
  match goal with
  | |- writes_only_progress (bind _ _) => apply wop_bind; [|intros ?]
  | |- writes_only_progress (try_except _ _) => apply wop_try; [|intros ?]
  | |- writes_only_progress (for_each _ _) => apply wop_for_each; intros ?
  | |- writes_only_progress (if ?b then _ else _) => destruct b
  | |- writes_only_progress (match ?x with _ => _ end) => destruct x
  | |- writes_only_progress _ => solve [auto with wop]
  end.

Lemma wop_frame_loop (env : Env) (total_frames : Z) (frames : list Frame) :
  forall locals,
    writes_only_progress (frame_loop env total_frames frames locals).
Proof.
  induction frames as [|frame rest IH]; intros locals; simpl.
  - apply wop_ret.
  - repeat wop_step.
Qed.

Lemma wop_process_video_dummy (env : Env) (video_path : string) :
  writes_only_progress (process_video_dummy env video_path).
Proof. unfold process_video_dummy. repeat wop_step. Qed.

Lemma wop_process_video_yolo (env : Env) (video_path : string) :
  writes_only_progress (process_video_yolo env video_path).
Proof.
  unfold process_video_yolo.
  destruct (negb (YOLO_AVAILABLE env)); [apply wop_process_video_dummy|].
  repeat first [apply wop_frame_loop | wop_step].
Qed.

Lemma never_raises_ret {A} (a : A) : never_raises (ret a).
Proof. intros w. now exists a. Qed.

Lemma never_raises_process_video_dummy (env : Env) (video_path : string) :
  never_raises (process_video_dummy env video_path).
Proof.
  unfold process_video_dummy. apply never_raises_try.
  intros e. apply never_raises_ret.
Qed.

Lemma never_raises_process_video_yolo (env : Env) (video_path : string) :
  never_raises (process_video_yolo env video_path).
Proof.
  unfold process_video_yolo.
  destruct (negb (YOLO_AVAILABLE env));
    [apply never_raises_process_video_dummy|].
  apply never_raises_try. intros e. apply never_raises_ret.
Qed.

(* Whatever the file holds, the processing step returns a result dictionary
   and leaves everything but the progress as it was. *)
Lemma run_processing_returns (env : Env) (video_path : string) (w : World) :
  exists result w',
    run_processing env video_path w = (Ok result, w') /\ only_progress w w'.
Proof.
  assert (Hn : never_raises (run_processing env video_path)).
  { unfold run_processing. destruct (YOLO_AVAILABLE env);
      [apply never_raises_process_video_yolo
      |apply never_raises_process_video_dummy]. }
  assert (Hw : writes_only_progress (run_processing env video_path)).
  { unfold run_processing. destruct (YOLO_AVAILABLE env);
      [apply wop_process_video_yolo | apply wop_process_video_dummy]. }
  specialize (Hn w). specialize (Hw w).
  destruct (run_processing env video_path w) as [r w'].
  destruct Hn as [a Ha]. simpl in Ha, Hw. subst r. now exists a, w'.
Qed.

(** ** A run of process_video on an accepted upload *)

Lemma process_video_accepted
  (env : Env) (name : string) (content : Video) (w : World) :
  name <> "" ->
  allowed_file env name = true ->
  save_outcome env = SaveOk ->
  let video_path := video_path_of env name in
  let saved := dict_set (uploads w) video_path content in
  exists result w',
    run_processing env video_path
      (mkWorld (current_video_data w) (mkStatus processing 0) saved)
    = (Ok result, w') /\
    process_video env (mkUpload (Some (name, content))) w
    = if remove_raises env
      then (Ok (mkResponse 500 (ExceptionBody OSError)),
            mkWorld (published_after result (current_video_data w))
                    (mkStatus error 100) saved)
      else (Ok (mkResponse 200 (ProcessBody result)),
            mkWorld (published_after result (current_video_data w))
                    (mkStatus completed 100) (dict_del saved video_path)).
Proof.
  intros Hname Hallowed Hsave video_path saved.
  destruct (run_processing_returns env video_path
              (mkWorld (current_video_data w) (mkStatus processing 0) saved))
    as (result & w' & Hrun & Hcvd & Hup & Hst).
  exists result, w'. split; [exact Hrun|].
  unfold process_video, try_except. cbn [files_video].
  destruct (String.eqb_spec name "") as [E|_]; [contradiction|].
  rewrite Hallowed. fold video_path.
  unfold file_save. rewrite Hsave.
  unfold bind at 1. unfold bind at 1. cbn [read_uploads set_uploads].
  change (dict_set (uploads w) video_path content) with saved.
  cbn [current_video_data processing_status uploads].
  unfold bind at 1. cbn [set_status current_video_data processing_status uploads].
  unfold bind at 1.
  cbn [set_progress current_video_data processing_status uploads status progress].
  unfold bind at 1. fold (run_processing env video_path). rewrite Hrun.
  cbn [current_video_data uploads status processing_status] in Hcvd, Hup, Hst.
  destruct w' as [cvd' [st' pr'] up']. cbn in Hcvd, Hup, Hst. subst cvd' up' st'.
  assert (Hmem : dict_mem video_path saved = true).
  { unfold dict_mem, saved. now rewrite dict_get_set_same. }
  unfold os_path_exists, os_remove.
  destruct result as [counts signals frames message | e message];
    cbn [success published_after];
    unfold bind, set_current_video_data, set_status, set_progress, ret,
      read_uploads, set_uploads, raise;
    cbn [current_video_data processing_status uploads status progress];
    rewrite Hmem; destruct (remove_raises env); reflexivity.
Qed.

(* With the file operations working, an accepted upload is gone from the
   upload folder when process_video returns, whether the processing step
   succeeded, failed or ran in dummy mode. *)
Lemma process_video_removes_upload
  (env : Env) (name : string) (content : Video) (w : World) :
  name <> "" ->
  allowed_file env name = true ->
  save_outcome env = SaveOk ->
  remove_raises env = false ->
  dict_wf (uploads w) ->
  dict_mem (video_path_of env name)
    (uploads (snd (process_video env (mkUpload (Some (name, content))) w)))
  = false.
Proof.
  intros Hname Hallowed Hsave Hremove Hwf.
  destruct (process_video_accepted env name content w Hname Hallowed Hsave)
    as (result & w' & _ & Hrun).
  rewrite Hrun, Hremove. cbn [snd uploads]. unfold dict_mem.
  rewrite dict_get_del_same; [reflexivity | now apply dict_wf_set].
Qed.

(* An unsuccessful result leaves the published state alone, and the status
   then reads completed. *)
Lemma process_video_failed_result
  (env : Env) (name : string) (content : Video) (w : World) :
  name <> "" ->
  allowed_file env name = true ->
  save_outcome env = SaveOk ->
  remove_raises env = false ->
  forall result,
    fst (process_video env (mkUpload (Some (name, content))) w)
    = Ok (mkResponse 200 (ProcessBody result)) ->
    success result = false ->
    let w' := snd (process_video env (mkUpload (Some (name, content))) w) in
    current_video_data w' = current_video_data w /\
    processing_status w' = mkStatus completed 100.
Proof.
  intros Hname Hallowed Hsave Hremove result Hresp Hfail.
  destruct (process_video_accepted env name content w Hname Hallowed Hsave)
    as (result' & w1 & _ & Hrun).
  rewrite Hrun, Hremove in Hresp |- *. cbn [fst snd] in *.
  injection Hresp as ->. destruct result; [discriminate|]. now split.
Qed.

(** C3: when the processing function returns an unsuccessful result,
    process_video leaves current_video_data as it was, but it sets the job
    status to completed, not to error. Evaluated on an upload that cannot be
    opened and on an upload whose first frame shows no vehicle (the lane
    dividers then read the unassigned local frame_width). *)
Theorem C3_failed_processing_is_reported_completed :
  process_video yolo_env (clip_request unopenable_video) world_after_job
  = (Ok (mkResponse 200
           (ProcessBody
              (ProcessFailed (Exception_ "Could not open video file")
                 "Error processing video with YOLO, falling back to dummy mode"))),
     mkWorld published_data (mkStatus completed 100) []) /\
  process_video yolo_env (clip_request empty_road_video) world_after_job
  = (Ok (mkResponse 200
           (ProcessBody
              (ProcessFailed UnboundLocalError
                 "Error processing video with YOLO, falling back to dummy mode"))),
     mkWorld published_data (mkStatus completed 100) []).
Proof. split; reflexivity. Qed.

(** C7: when file.save fails while writing, the handler of process_video
    sets the status to error and answers 500, and the truncated upload stays
    in the upload folder: the except path has no cleanup. *)
Theorem C7_upload_kept_on_exception_path :
  process_video save_failing_env (clip_request one_car_video) world_after_job
  = (Ok (mkResponse 500 (ExceptionBody OSError)),
     mkWorld published_data (mkStatus error 100)
             [(clip_path, unopenable_video)]) /\
  video_path_of save_failing_env "clip.mp4" = clip_path /\
  dict_mem clip_path (uploads world_after_job) = false /\
  dict_mem clip_path
    (uploads (snd (process_video save_failing_env
                     (clip_request one_car_video) world_after_job)))
  = true.
Proof. repeat split; reflexivity. Qed.

(** C8, as amended: process_video never reads processing_status. A
    submission that arrives while the status is processing is handled like
    any other: the response, the published signal state and the upload
    folder are the same as for any other incoming status, and for an accepted
    upload whose file operations succeed a new processing run is made on the
    saved file, from status processing and progress 0; the response is 200
    with the result of that run, the result's signals are published if it is
    a success, and the status ends as completed with progress 100. *)
Theorem C8_submission_ignores_processing_status
  (env : Env) (request : UploadRequest) (w : World) (ps : ProcessingStatus) :
  fst (process_video env request (with_status w ps))
  = fst (process_video env request w) /\
  same_data (snd (process_video env request (with_status w ps)))
            (snd (process_video env request w)) /\
  (forall name content,
      files_video request = Some (name, content) ->
      name <> "" ->
      allowed_file env name = true ->
      save_outcome env = SaveOk ->
      remove_raises env = false ->
      exists result w',
        run_processing env (video_path_of env name)
          (job_world env name content w)
        = (Ok result, w') /\
        fst (process_video env request (with_status w ps))
        = Ok (mkResponse 200 (ProcessBody result)) /\
        current_video_data
          (snd (process_video env request (with_status w ps)))
        = published_after result (current_video_data w) /\
        processing_status (snd (process_video env request (with_status w ps)))
        = mkStatus completed 100).
Proof.
  assert (Hsame : same_data (with_status w ps) w) by now split.
  destruct (ignores_process_video env request _ _ Hsame) as [Hr Hw].
  split; [exact Hr|]. split; [exact Hw|].
  intros name content Hfile Hname Hallowed Hsave Hremove.
  destruct request as [file]. cbn [files_video] in Hfile. subst file.
  destruct (process_video_accepted env name content (with_status w ps)
              Hname Hallowed Hsave) as (result & w' & Hproc & Hrun).
  exists result, w'. split; [exact Hproc|].
  rewrite Hrun, Hremove. cbn [fst snd processing_status current_video_data].
  repeat split.
Qed.

(** C8 as stated fails: a submission made while the status is processing
    (a first job at 40 percent) is not rejected. It is answered 200 with a
    successful result, its signals are published, and the status the first
    job had written is overwritten. *)
Lemma C8_counterexample_busy_submission_is_processed :
  status (processing_status busy_world) = processing /\
  (exists counts signals,
      fst (process_video yolo_env (clip_request one_car_video) busy_world)
      = Ok (mkResponse 200
              (ProcessBody
                 (ProcessOk counts signals 1
                    "Video processed successfully with YOLO"))) /\
      current_video_data
        (snd (process_video yolo_env (clip_request one_car_video) busy_world))
      = signals /\
      signals <> current_video_data busy_world) /\
  processing_status
    (snd (process_video yolo_env (clip_request one_car_video) busy_world))
  = mkStatus completed 100 /\
  processing_status
    (snd (process_video yolo_env (clip_request one_car_video) busy_world))
  <> processing_status busy_world.
Proof.
  split; [reflexivity|]. split.
  - eexists. eexists. split; [reflexivity|]. split; [reflexivity|].
    discriminate.
  - split; [reflexivity | discriminate].
Qed.

(** ** simulate_traffic *)

Lemma counts_of_map (data : SignalState) :
  dict_wf data -> counts_of data = counts_map data.
Proof.
  intros Hwf. unfold counts_of, counts_map.
  now rewrite (fold_set_append (fun item => count (snd item))).
Qed.

Lemma counts_map_keys (data : SignalState) :
  dict_keys (counts_map data) = dict_keys data.
Proof.
  unfold counts_map, dict_keys. rewrite map_map. now apply map_ext.
Qed.

Lemma counts_map_set (data : SignalState) (key : string) (v : LaneData) :
  counts_map (dict_set data key v) = dict_set (counts_map data) key (count v).
Proof.
  induction data as [|[k ld] t IH]; simpl; [reflexivity|].
  destruct (String.eqb k key); simpl; [reflexivity | now rewrite IH].
Qed.

Lemma dict_get_table (hi lo : option Priority) (m : string) (d : dict Z)
      (k : string) :
  dict_get (map (table_entry hi lo m) d) k
  = option_map (fun n => snd (table_entry hi lo m (k, n))) (dict_get d k).
Proof.
  induction d as [|[k' n] t IH]; simpl; [reflexivity|].
  destruct (String.eqb_spec k' k) as [->|Hne]; [reflexivity | exact IH].
Qed.

(* a valid lane: the count is stored, the timing recomputed over all four
   counts and the result republished *)
Lemma simulate_traffic_valid
  (env : Env) (w : World) (lane : string) (n : Z) :
  dict_wf (current_video_data w) ->
  In ("lane" ++ lane)%string (dict_keys (current_video_data w)) ->
  exists data,
    calculate_signal_timing
      (dict_set (counts_map (current_video_data w)) ("lane" ++ lane)%string n)
    = Ok data /\
    dict_keys data = dict_keys (current_video_data w) /\
    option_map count (dict_get data ("lane" ++ lane)%string) = Some n /\
    simulate_traffic env (mkSimulate (Some (Some lane, Some n))) w
    = (Ok (mkResponse 200 (SimulateBody lane n data)),
       mkWorld data (processing_status w) (uploads w)).
Proof.
  intros Hwf Hin.
  set (key := ("lane" ++ lane)%string) in *.
  set (current := current_video_data w) in *.
  destruct (dict_get current key) as [lane_data|] eqn:Hget.
  2:{ apply dict_get_none_iff in Hget. contradiction. }
  set (stored := dict_set current key
                   (mkLaneData n (signal lane_data) (time lane_data)
                      (priority lane_data))).
  assert (Hkeys : dict_keys stored = dict_keys current).
  { now apply dict_keys_set_present. }
  assert (Hwf' : dict_wf stored) by now apply dict_wf_set.
  assert (Hcounts : counts_of stored = dict_set (counts_map current) key n).
  { rewrite counts_of_map by exact Hwf'. apply counts_map_set. }
  assert (Hcwf : dict_wf (dict_set (counts_map current) key n)).
  { apply dict_wf_set. unfold dict_wf. now rewrite counts_map_keys. }
  assert (Hckeys : dict_keys (dict_set (counts_map current) key n)
                   = dict_keys current).
  { rewrite dict_keys_set_present; [apply counts_map_keys|].
    now rewrite counts_map_keys. }
  assert (Hcne : dict_set (counts_map current) key n <> []).
  { intros E. rewrite E in Hckeys. simpl in Hckeys.
    rewrite <- Hckeys in Hin. exact Hin. }
  destruct (timing_shape _ Hcwf Hcne) as (m & _ & _ & Htiming & _).
  set (data := map (table_entry None None m)
                   (dict_set (counts_map current) key n)) in *.
  assert (Hdkeys : dict_keys data = dict_keys current).
  { unfold data. now rewrite table_keys. }
  exists data. split; [exact Htiming|]. split; [exact Hdkeys|]. split.
  - unfold data. rewrite dict_get_table, dict_get_set_same.
    cbn [option_map table_entry fst snd].
    now destruct (String.eqb key m).
  - unfold simulate_traffic, try_except, bind. cbn [get_json ret fst snd].
    cbn [read_current_video_data]. fold current. fold key.
    unfold dict_mem, set_lane_count. rewrite Hget. fold stored.
    cbn [set_current_video_data current_video_data processing_status uploads].
    rewrite Hcounts, Htiming. cbn [lift].
    rewrite (dict_update_same_keys stored data Hwf') by congruence.
    reflexivity.
Qed.

(** C9: from every signal state over the lanes, simulate('B', 18) followed
    by get_traffic_data returns a state in which lane B has count 18 and
    which is, for every lane, the result of calculate_signal_timing on the
    counts of the earlier state with lane B's count replaced by 18. *)
Theorem C9_simulate_then_read (env : Env) (w : World) :
  dict_wf (current_video_data w) ->
  In "laneB" (dict_keys (current_video_data w)) ->
  exists data w',
    simulate_traffic env (mkSimulate (Some (Some "B", Some 18))) w
    = (Ok (mkResponse 200 (SimulateBody "B" 18 data)), w') /\
    get_traffic_data w' = (Ok (mkResponse 200 (DataBody data)), w') /\
    option_map count (dict_get data "laneB") = Some 18 /\
    calculate_signal_timing
      (dict_set (counts_map (current_video_data w)) "laneB" 18)
    = Ok data /\
    dict_keys data = dict_keys (current_video_data w).
Proof.
  intros Hwf Hin.
  destruct (simulate_traffic_valid env w "B" 18 Hwf Hin)
    as (data & Htiming & Hkeys & Hcount & Hrun).
  exists data, (mkWorld data (processing_status w) (uploads w)).
  split; [exact Hrun|]. split; [reflexivity|]. easy.
Qed.

Lemma C9_witness :
  dict_wf (current_video_data world_after_job) /\
  In "laneB" (dict_keys (current_video_data world_after_job)) /\
  exists data w',
    simulate_traffic yolo_env (mkSimulate (Some (Some "B", Some 18)))
      world_after_job
    = (Ok (mkResponse 200 (SimulateBody "B" 18 data)), w') /\
    get_traffic_data w' = (Ok (mkResponse 200 (DataBody data)), w') /\
    option_map count (dict_get data "laneB") = Some 18 /\
    calculate_signal_timing
      (dict_set (counts_map (current_video_data world_after_job)) "laneB" 18)
    = Ok data /\
    dict_keys data = dict_keys (current_video_data world_after_job).
Proof.
  assert (Hwf : dict_wf (current_video_data world_after_job)).
  { unfold dict_wf. cbn.
    repeat constructor; cbn [In];
      intros H; repeat destruct H as [H|H]; try exact H; discriminate H. }
  assert (Hin : In "laneB" (dict_keys (current_video_data world_after_job))).
  { cbn. tauto. }
  split; [exact Hwf|]. split; [exact Hin|].
  exact (C9_simulate_then_read yolo_env world_after_job Hwf Hin).
Defined.

(** C10: when the keys of current_video_data are lane keys and the lane
    identifier of the request is none of A, B, C, D, simulate_traffic answers
    400 with success False, whatever the count and also without one, and the
    whole state, current_video_data included, is exactly as before. *)
Theorem C10_invalid_lane_changes_nothing
  (env : Env) (w : World) (lane : string) (n : option Z) :
  (forall key, In key (dict_keys (current_video_data w)) ->
               exists l, key = lane_key l) ->
  (forall l, lane <> lane_name l) ->
  simulate_traffic env (mkSimulate (Some (Some lane, n))) w
  = (Ok (mkResponse 400 (InvalidLaneBody lane)), w).
Proof.
  intros Hkeys Hlane.
  assert (Hmem : dict_mem ("lane" ++ lane)%string (current_video_data w)
                 = false).
  { destruct (dict_mem ("lane" ++ lane)%string (current_video_data w)) eqn:E;
      [|reflexivity].
    apply dict_mem_true_iff in E. destruct (Hkeys _ E) as [l Hl].
    unfold lane_key in Hl. simpl in Hl. injection Hl as Hl.
    elim (Hlane l). exact Hl. }
  unfold simulate_traffic, try_except, bind.
  cbn [get_json ret fst snd read_current_video_data].
  rewrite Hmem. reflexivity.
Qed.

Lemma C10_witness :
  (forall key, In key (dict_keys (current_video_data world_after_job)) ->
               exists l, key = lane_key l) /\
  (forall l, "E" <> lane_name l) /\
  simulate_traffic yolo_env (mkSimulate (Some (Some "E", Some 12)))
    world_after_job
  = (Ok (mkResponse 400 (InvalidLaneBody "E")), world_after_job).
Proof.
  assert (Hkeys : forall key,
             In key (dict_keys (current_video_data world_after_job)) ->
             exists l, key = lane_key l).
  { intros key H. cbn in H.
    destruct H as [H|[H|[H|[H|[]]]]]; subst key;
      [exists LaneA | exists LaneB | exists LaneC | exists LaneD];
      reflexivity. }
  assert (Hlane : forall l, "E" <> lane_name l).
  { intros l. destruct l; discriminate. }
  split; [exact Hkeys|]. split; [exact Hlane|].
  exact (C10_invalid_lane_changes_nothing yolo_env world_after_job "E"
           (Some 12) Hkeys Hlane).
Defined.

(** * Further properties of the sources *)

(** ** The duration table and the lane classifiers *)

(** X1: the threshold cascade of app.py (count > 15, > 10, > 5) and
    Config.get_signal_timing (count <= 5, <= 10, <= 15) give the same
    duration for every integer count, negative ones included; the duration
    is one of 15, 20, 25, 30 and never decreases when the count grows. *)
Theorem signal_timing_is_a_monotone_step (n m : Z) :
  green_time_of n = Config.get_signal_timing n /\
  In (Config.get_signal_timing n) [15; 20; 25; 30] /\
  (n <= m -> Config.get_signal_timing n <= Config.get_signal_timing m).
Proof.
  split; [apply green_time_of_table|].
  unfold Config.get_signal_timing, Config.DENSITY_low, Config.DENSITY_medium,
    Config.DENSITY_high, Config.BASE_GREEN_TIME, Config.MAX_GREEN_TIME.
  split.
  - destruct (Z.leb_spec n 5), (Z.leb_spec n 10), (Z.leb_spec n 15);
      cbn [In]; tauto.
  - intros Hnm.
    destruct (Z.leb_spec n 5), (Z.leb_spec n 10), (Z.leb_spec n 15),
      (Z.leb_spec m 5), (Z.leb_spec m 10), (Z.leb_spec m 15); lia.
Qed.

(** X2: the three lane classifiers agree. determine_lane with its default
    of four lanes returns the lane Config.get_lane_from_coordinates returns,
    and the frame loop of process_video_yolo increments, for a box that
    passes the vehicle filter, the key "lane" followed by that same lane for
    the box's left edge, recording the frame's width. *)
Theorem lane_classifiers_agree
  (x : Q) (width : Z) (frame : Frame) (box : Box)
  (counts : dict Z) (assigned : option Z) :
  LaneDetector.determine_lane_default x width
  = Ok (Config.get_lane_from_coordinates x width) /\
  count_box frame (counts, assigned) box
  = if is_vehicle box
    then (increment counts
            ("lane" ++ Config.get_lane_from_coordinates (x1 box) (shape1 frame))%string,
          Some (shape1 frame))
    else (counts, assigned).
Proof.
  split; [reflexivity|].
  unfold count_box, Config.get_lane_from_coordinates, Config.LANE_COUNT.
  destruct (is_vehicle box); [|reflexivity]. cbv zeta.
  destruct (Qltb (x1 box) (inject_Z (shape1 frame / 4)));
    [reflexivity|].
  destruct (Qltb (x1 box) (inject_Z (shape1 frame / 4 * 2)));
    [reflexivity|].
  destruct (Qltb (x1 box) (inject_Z (shape1 frame / 4 * 3))); reflexivity.
Qed.

(** ** Counting *)

Lemma counts_get_increment (d : dict Z) (k k' : string) :
  In k (dict_keys d) ->
  counts_get (increment d k) k'
  = counts_get d k' + (if String.eqb k k' then 1 else 0).
Proof.
  intros Hin. unfold increment, counts_get at 1.
  destruct (String.eqb_spec k k') as [<-|Hne].
  - now rewrite dict_get_set_same.
  - rewrite dict_get_set_other by congruence. unfold counts_get. lia.
Qed.

Lemma sum_counts_increment (d : dict Z) (k : string) :
  In k (dict_keys d) -> sum_counts (increment d k) = sum_counts d + 1.
Proof.
  unfold increment, sum_counts, counts_get.
  induction d as [|[k0 c0] t IH]; simpl; intros Hin; [easy|].
  destruct (String.eqb_spec k0 k) as [->|Hne]; simpl.
  - lia.
  - rewrite IH; [lia|]. destruct Hin; [congruence | easy].
Qed.

Lemma increment_keys (d : dict Z) (k : string) :
  In k (dict_keys d) -> dict_keys (increment d k) = dict_keys d.
Proof. intros Hin. now apply dict_keys_set_present. Qed.

Lemma detections_in_cons (lane : string) (d : Detection)
      (rest : list Detection) :
  detections_in lane (d :: rest)
  = (if String.eqb (detection_lane d) lane then 1 else 0)
    + detections_in lane rest.
Proof.
  unfold detections_in. simpl.
  destruct (String.eqb (detection_lane d) lane); simpl List.length; lia.
Qed.

(* the loop of count_vehicles_by_lane, from any counts of the four lanes *)
Lemma count_loop_ascending (detections : list Detection) :
  forall c : LaneId -> Z,
    fold_left
      (fun lane_counts detection =>
         let lane := detection_lane detection in
         if dict_mem lane lane_counts
         then increment lane_counts lane
         else lane_counts)
      detections (ascending_counts lane_name c)
    = ascending_counts lane_name
        (fun l => c l + detections_in (lane_name l) detections).
Proof.
  induction detections as [|d rest IH]; intros c.
  - unfold ascending_counts, detections_in. simpl. now rewrite !Z.add_0_r.
  - cbn [fold_left]. cbv zeta.
    assert (Hstep :
              (if dict_mem (detection_lane d) (ascending_counts lane_name c)
               then increment (ascending_counts lane_name c) (detection_lane d)
               else ascending_counts lane_name c)
              = ascending_counts lane_name
                  (fun l => c l + (if String.eqb (detection_lane d) (lane_name l)
                                   then 1 else 0))).
    { unfold dict_mem, increment, counts_get, ascending_counts.
      cbn [dict_get dict_set lane_name].
      destruct (String.eqb_spec (detection_lane d) "A") as [->|HA].
      { cbn. now rewrite ?Z.add_0_r. }
      destruct (String.eqb_spec (detection_lane d) "B") as [->|HB].
      { cbn. now rewrite ?Z.add_0_r. }
      destruct (String.eqb_spec (detection_lane d) "C") as [->|HC].
      { cbn. now rewrite ?Z.add_0_r. }
      destruct (String.eqb_spec (detection_lane d) "D") as [->|HD].
      { cbn. now rewrite ?Z.add_0_r. }
      assert (EA : String.eqb "A" (detection_lane d) = false)
        by (apply String.eqb_neq; congruence).
      assert (EB : String.eqb "B" (detection_lane d) = false)
        by (apply String.eqb_neq; congruence).
      assert (EC : String.eqb "C" (detection_lane d) = false)
        by (apply String.eqb_neq; congruence).
      assert (ED : String.eqb "D" (detection_lane d) = false)
        by (apply String.eqb_neq; congruence).
      rewrite EA, EB, EC, ED. now rewrite !Z.add_0_r. }
    rewrite Hstep, IH. unfold ascending_counts.
    rewrite !detections_in_cons. cbn [lane_name].
    now rewrite !Z.add_assoc.
Qed.

Lemma count_vehicles_by_lane_ascending (detections : list Detection) :
  count_vehicles_by_lane detections
  = ascending_counts lane_name
      (fun l => detections_in (lane_name l) detections).
Proof.
  unfold count_vehicles_by_lane.
  change [("A", 0); ("B", 0); ("C", 0); ("D", 0)]
    with (ascending_counts lane_name (fun _ => 0)).
  now rewrite count_loop_ascending.
Qed.

(** X3: count_vehicles_by_lane always returns the four lanes A, B, C, D in
    that order; the count of a lane is the number of detections naming it,
    a detection without a 'lane' member counting for lane A; detections
    naming any other lane are dropped, so the counts add up to the number of
    detections whose lane is one of the four. *)
Theorem count_vehicles_by_lane_counts (detections : list Detection) :
  count_vehicles_by_lane detections
  = [("A", detections_in "A" detections);
     ("B", detections_in "B" detections);
     ("C", detections_in "C" detections);
     ("D", detections_in "D" detections)] /\
  sum_counts (count_vehicles_by_lane detections)
  = Z.of_nat
      (List.length
         (filter (fun d => existsb (String.eqb (detection_lane d)) Config.LANES)
                 detections)).
Proof.
  rewrite count_vehicles_by_lane_ascending.
  split; [reflexivity|].
  unfold sum_counts, ascending_counts. cbn [dict_values map snd fold_right lane_name].
  set (named := fun d => existsb (String.eqb (detection_lane d)) Config.LANES).
  induction detections as [|d rest IH].
  - reflexivity.
  - rewrite !detections_in_cons. cbn [filter].
    assert (Hd : named d
                 = (String.eqb (detection_lane d) "A"
                    || String.eqb (detection_lane d) "B"
                    || String.eqb (detection_lane d) "C"
                    || String.eqb (detection_lane d) "D")%bool).
    { unfold named. cbn [existsb Config.LANES]. now rewrite orb_false_r, !orb_assoc. }
    rewrite Hd.
    destruct (String.eqb_spec (detection_lane d) "A") as [EA|EA];
      destruct (String.eqb_spec (detection_lane d) "B") as [EB|EB];
      destruct (String.eqb_spec (detection_lane d) "C") as [EC|EC];
      destruct (String.eqb_spec (detection_lane d) "D") as [ED|ED];
      try congruence;
      cbn [orb List.length]; rewrite ?Nat2Z.inj_succ; lia.
Qed.

Lemma detections_in_permutation (lane : string)
      (detections detections' : list Detection) :
  Permutation detections detections' ->
  detections_in lane detections = detections_in lane detections'.
Proof.
  intros H. induction H as [|d l l' _ IH|d d' l|l l' l'' _ IH1 _ IH2].
  - reflexivity.
  - now rewrite !detections_in_cons, IH.
  - rewrite !detections_in_cons. lia.
  - congruence.
Qed.

(** X4: count_vehicles_by_lane does not depend on the order of the
    detections: any rearrangement of the list gives the same dictionary. *)
Theorem count_vehicles_by_lane_order_independent
  (detections detections' : list Detection) :
  Permutation detections detections' ->
  count_vehicles_by_lane detections = count_vehicles_by_lane detections'.
Proof.
  intros H. rewrite !count_vehicles_by_lane_ascending.
  unfold ascending_counts.
  now rewrite !(detections_in_permutation _ detections detections' H).
Qed.

Lemma count_vehicles_by_lane_order_independent_witness :
  Permutation [mkDetection (Some "B") None; mkDetection None (Some "car")]
              [mkDetection None (Some "car"); mkDetection (Some "B") None] /\
  count_vehicles_by_lane
    [mkDetection (Some "B") None; mkDetection None (Some "car")]
  = count_vehicles_by_lane
      [mkDetection None (Some "car"); mkDetection (Some "B") None].
Proof.
  assert (H : Permutation
                [mkDetection (Some "B") None; mkDetection None (Some "car")]
                [mkDetection None (Some "car"); mkDetection (Some "B") None])
    by apply perm_swap.
  split; [exact H|].
  exact (count_vehicles_by_lane_order_independent _ _ H).
Defined.

(** X5: counting the detections by lane and handing the counts to
    calculate_adaptive_timing never fails, whatever the detections, the empty
    list included: the result has exactly one Green lane, the lane with the
    most detections and, among ties, the first of A, B, C, D. With no
    detection at all lane A is Green for 15 seconds. *)
Theorem timing_of_counted_detections (detections : list Detection) :
  result_green_lanes
    (SignalController.calculate_adaptive_timing
       (count_vehicles_by_lane detections))
  = Ok [lane_name
          (spec_priority_lane
             (fun l => detections_in (lane_name l) detections))] /\
  SignalController.calculate_adaptive_timing (count_vehicles_by_lane [])
  = Ok [("A", mkLaneData 0 Green 15 (Some High));
        ("B", mkLaneData 0 Red 15 (Some Low));
        ("C", mkLaneData 0 Red 15 (Some Low));
        ("D", mkLaneData 0 Red 15 (Some Low))].
Proof.
  split; [|reflexivity].
  rewrite count_vehicles_by_lane_ascending.
  set (c := fun l => detections_in (lane_name l) detections).
  assert (Hwf : dict_wf (ascending_counts lane_name c))
    by apply ascending_counts_wf, lane_name_injective.
  assert (Hne : ascending_counts lane_name c <> []) by discriminate.
  destruct (timing_shape _ Hwf Hne) as (m & Hm & Hin & _ & Hutil).
  rewrite chosen_lane_ascending in Hm by exact lane_name_injective.
  injection Hm as <-.
  rewrite Hutil. unfold result_green_lanes, rbind.
  now rewrite table_green_lanes.
Qed.

(** ** Phases and cycle time *)

Lemma list_index_absent (x : string) (l : list string) :
  list_index x l = Raise ValueError <-> ~ In x l.
Proof.
  induction l as [|y t IH]; simpl.
  - tauto.
  - destruct (String.eqb_spec y x) as [->|Hne].
    + split; [discriminate | intros H; elim H; now left].
    + destruct (list_index x t) as [i|e] eqn:E; simpl.
      * split; [discriminate|]. intros H. exfalso.
        assert (Hx : ~ In x t) by tauto. apply IH in Hx. discriminate.
      * split.
        -- intros He. injection He as ->.
           intros [H|H]; [congruence|]. now apply (proj1 IH).
        -- intros H. f_equal.
           assert (Hx : ~ In x t) by tauto. apply IH in Hx. congruence.
Qed.

Lemma list_index_nth (l : list string) (i : nat) (x : string) :
  NoDup l -> nth_error l i = Some x -> list_index x l = Ok i.
Proof.
  revert i. induction l as [|y t IH]; intros i Hnd Hnth.
  - destruct i; discriminate.
  - inversion Hnd as [|? ? Hnotin Hnd']; subst. destruct i as [|i]; simpl in *.
    + injection Hnth as ->. now rewrite String.eqb_refl.
    + destruct (String.eqb_spec y x) as [->|Hne].
      * elim Hnotin. now apply nth_error_In in Hnth.
      * now rewrite (IH i Hnd' Hnth).
Qed.

(** X6: get_next_phase raises ValueError whenever current_lane is not a key
    of the signal dictionary, so always on an empty dictionary; when
    current_lane is a key, it returns a lane that is again a key, together
    with a duration. *)
Theorem get_next_phase_fails_on_unknown_lane
  (signals : SignalState) (current_lane : string) :
  (~ In current_lane (dict_keys signals) ->
   get_next_phase signals current_lane = Raise ValueError) /\
  (dict_wf signals -> In current_lane (dict_keys signals) ->
   exists next_lane duration,
     get_next_phase signals current_lane = Ok (next_lane, duration) /\
     In next_lane (dict_keys signals)).
Proof.
  split.
  - intros Hnot. unfold get_next_phase.
    apply list_index_absent in Hnot. now rewrite Hnot.
  - intros Hwf Hin. unfold get_next_phase.
    apply In_nth_error in Hin. destruct Hin as [i Hi].
    rewrite (list_index_nth _ i current_lane Hwf Hi). cbn [rbind].
    assert (Hlen : (i < List.length (dict_keys signals))%nat).
    { apply nth_error_Some. congruence. }
    assert (Hmod : (Nat.modulo (i + 1) (List.length (dict_keys signals))
                    < List.length (dict_keys signals))%nat).
    { apply Nat.mod_upper_bound. lia. }
    destruct (nth_error (dict_keys signals)
                (Nat.modulo (i + 1) (List.length (dict_keys signals))))
      as [next_lane|] eqn:Enext.
    2:{ apply nth_error_None in Enext. lia. }
    assert (Hnext : In next_lane (dict_keys signals))
      by now apply nth_error_In in Enext.
    destruct (dict_get signals next_lane) as [lane_data|] eqn:Eget.
    2:{ apply dict_get_none_iff in Eget. contradiction. }
    now exists next_lane, (time lane_data).
Qed.

(** X7: get_next_phase walks the keys cyclically in dictionary order: from
    the key at position i it returns the key at position (i + 1) mod n and
    the 'time' stored for that key, so the last lane is followed by the
    first. *)
Theorem get_next_phase_is_cyclic_successor
  (signals : SignalState) (i : nat) (current_lane : string) :
  dict_wf signals ->
  nth_error (dict_keys signals) i = Some current_lane ->
  exists next_lane lane_data,
    nth_error signals (Nat.modulo (i + 1) (List.length signals))
    = Some (next_lane, lane_data) /\
    get_next_phase signals current_lane = Ok (next_lane, time lane_data).
Proof.
  intros Hwf Hi. unfold get_next_phase.
  rewrite (list_index_nth _ i current_lane Hwf Hi). cbn [rbind].
  assert (Hlen : (i < List.length (dict_keys signals))%nat).
  { apply nth_error_Some. congruence. }
  assert (Hkeys : List.length (dict_keys signals) = List.length signals).
  { unfold dict_keys. apply length_map. }
  rewrite Hkeys in *.
  assert (Hmod : (Nat.modulo (i + 1) (List.length signals)
                  < List.length signals)%nat).
  { apply Nat.mod_upper_bound. lia. }
  destruct (nth_error signals (Nat.modulo (i + 1) (List.length signals)))
    as [[next_lane lane_data]|] eqn:Enext.
  2:{ apply nth_error_None in Enext. lia. }
  exists next_lane, lane_data. split; [reflexivity|].
  unfold dict_keys at 1. rewrite nth_error_map, Enext. cbn [option_map fst].
  rewrite (dict_get_in signals next_lane lane_data Hwf); [reflexivity|].
  now apply nth_error_In in Enext.
Qed.

Lemma get_next_phase_is_cyclic_successor_witness :
  dict_wf published_data /\
  nth_error (dict_keys published_data) 3 = Some "laneD" /\
  exists next_lane lane_data,
    nth_error published_data (Nat.modulo (3 + 1) (List.length published_data))
    = Some (next_lane, lane_data) /\
    get_next_phase published_data "laneD" = Ok (next_lane, time lane_data).
Proof.
  assert (Hwf : dict_wf published_data).
  { unfold dict_wf. cbn.
    repeat constructor; cbn [In];
      intros H; repeat destruct H as [H|H]; try exact H; discriminate H. }
  assert (Hi : nth_error (dict_keys published_data) 3 = Some "laneD")
    by reflexivity.
  split; [exact Hwf|]. split; [exact Hi|].
  exact (get_next_phase_is_cyclic_successor published_data 3 "laneD" Hwf Hi).
Defined.

(** X8: for every non-empty count mapping over n lanes, the cycle time of the
    state either timing function computes lies between 15 n and 15 n + 15
    seconds, and it is 15 n exactly when the Green lane's count is at most
    5. *)
Theorem cycle_time_bounds (vehicle_counts : dict Z) :
  dict_wf vehicle_counts ->
  vehicle_counts <> [] ->
  exists signals signals' green_lane,
    calculate_signal_timing vehicle_counts = Ok signals /\
    SignalController.calculate_adaptive_timing vehicle_counts = Ok signals' /\
    chosen_lane vehicle_counts = Ok green_lane /\
    SignalController.calculate_cycle_time signals
    = SignalController.calculate_cycle_time signals' /\
    15 * Z.of_nat (List.length vehicle_counts)
    <= SignalController.calculate_cycle_time signals
    <= 15 * Z.of_nat (List.length vehicle_counts) + 15 /\
    (SignalController.calculate_cycle_time signals
     = 15 * Z.of_nat (List.length vehicle_counts)
     <-> counts_get vehicle_counts green_lane <= 5).
Proof.
  intros Hwf Hne.
  destruct (timing_shape vehicle_counts Hwf Hne) as (m & Hm & Hin & Happ & Hutil).
  exists (map (table_entry None None m) vehicle_counts),
    (map (table_entry (Some High) (Some Low) m) vehicle_counts), m.
  split; [exact Happ|]. split; [exact Hutil|]. split; [exact Hm|].
  rewrite !table_cycle_time by easy.
  split; [reflexivity|].
  unfold Config.get_signal_timing, Config.DENSITY_low, Config.DENSITY_medium,
    Config.DENSITY_high, Config.BASE_GREEN_TIME, Config.MAX_GREEN_TIME.
  destruct (Z.leb_spec (counts_get vehicle_counts m) 5),
    (Z.leb_spec (counts_get vehicle_counts m) 10),
    (Z.leb_spec (counts_get vehicle_counts m) 15); lia.
Qed.

Lemma cycle_time_bounds_witness :
  let vehicle_counts := ascending_counts lane_key tie_example in
  dict_wf vehicle_counts /\
  vehicle_counts <> [] /\
  exists signals signals' green_lane,
    calculate_signal_timing vehicle_counts = Ok signals /\
    SignalController.calculate_adaptive_timing vehicle_counts = Ok signals' /\
    chosen_lane vehicle_counts = Ok green_lane /\
    SignalController.calculate_cycle_time signals
    = SignalController.calculate_cycle_time signals' /\
    15 * Z.of_nat (List.length vehicle_counts)
    <= SignalController.calculate_cycle_time signals
    <= 15 * Z.of_nat (List.length vehicle_counts) + 15 /\
    (SignalController.calculate_cycle_time signals
     = 15 * Z.of_nat (List.length vehicle_counts)
     <-> counts_get vehicle_counts green_lane <= 5).
Proof.
  intros vehicle_counts.
  assert (Hwf : dict_wf vehicle_counts)
    by apply ascending_counts_wf, lane_key_injective.
  assert (Hne : vehicle_counts <> []) by discriminate.
  split; [exact Hwf|]. split; [exact Hne|].
  exact (cycle_time_bounds vehicle_counts Hwf Hne).
Defined.

Lemma counts_map_table (hi lo : option Priority) (m : string) (d : dict Z) :
  counts_map (map (table_entry hi lo m) d) = d.
Proof.
  unfold counts_map. rewrite map_map. rewrite <- (map_id d) at 2.
  apply map_ext. intros [k c]. unfold table_entry. simpl.
  now destruct (String.eqb k m).
Qed.

(** X9: the timing functions keep every count and the order of the lanes:
    reading the counts back from the state calculate_signal_timing returns
    gives the mapping it was given, and computing the timing again from
    those counts returns the same state. *)
Theorem timing_round_trip (vehicle_counts : dict Z) :
  dict_wf vehicle_counts ->
  vehicle_counts <> [] ->
  exists signals signals',
    calculate_signal_timing vehicle_counts = Ok signals /\
    SignalController.calculate_adaptive_timing vehicle_counts = Ok signals' /\
    counts_of signals = vehicle_counts /\
    counts_of signals' = vehicle_counts /\
    calculate_signal_timing (counts_of signals) = Ok signals.
Proof.
  intros Hwf Hne.
  destruct (timing_shape vehicle_counts Hwf Hne) as (m & Hm & Hin & Happ & Hutil).
  exists (map (table_entry None None m) vehicle_counts),
    (map (table_entry (Some High) (Some Low) m) vehicle_counts).
  split; [exact Happ|]. split; [exact Hutil|].
  assert (H1 : counts_of (map (table_entry None None m) vehicle_counts)
               = vehicle_counts).
  { rewrite counts_of_map; [apply counts_map_table|].
    unfold dict_wf. now rewrite table_keys. }
  assert (H2 : counts_of (map (table_entry (Some High) (Some Low) m)
                              vehicle_counts) = vehicle_counts).
  { rewrite counts_of_map; [apply counts_map_table|].
    unfold dict_wf. now rewrite table_keys. }
  split; [exact H1|]. split; [exact H2|]. now rewrite H1.
Qed.

Lemma timing_round_trip_witness :
  let vehicle_counts := tie_b_first lane_key in
  dict_wf vehicle_counts /\
  vehicle_counts <> [] /\
  exists signals signals',
    calculate_signal_timing vehicle_counts = Ok signals /\
    SignalController.calculate_adaptive_timing vehicle_counts = Ok signals' /\
    counts_of signals = vehicle_counts /\
    counts_of signals' = vehicle_counts /\
    calculate_signal_timing (counts_of signals) = Ok signals.
Proof.
  intros vehicle_counts.
  assert (Hwf : dict_wf vehicle_counts).
  { unfold dict_wf, vehicle_counts, tie_b_first. cbn.
    repeat constructor; cbn [In];
      intros H; repeat destruct H as [H|H]; try exact H; discriminate H. }
  assert (Hne : vehicle_counts <> []) by discriminate.
  split; [exact Hwf|]. split; [exact Hne|].
  exact (timing_round_trip vehicle_counts Hwf Hne).
Defined.

(** ** allowed_file *)

Lemma rsplit_dot_none (s : string) :
  contains_dot s = false -> rsplit_dot s = None.
Proof.
  induction s as [|c t IH]; simpl; intros H; [reflexivity|].
  apply orb_false_iff in H. destruct H as [Hc Ht].
  now rewrite (IH Ht), Hc.
Qed.

Lemma rsplit_dot_last (name ext : string) :
  contains_dot ext = false ->
  rsplit_dot (name ++ "." ++ ext)%string = Some ext.
Proof.
  intros Hext. induction name as [|c t IH]; simpl.
  - now rewrite (rsplit_dot_none ext Hext).
  - simpl in IH. now rewrite IH.
Qed.

(** X10: allowed_file looks only at the text after the last '.', lower-cased
    by str.lower: a name ending in '.' and a dot-free extension is accepted
    exactly when str.lower of the extension is one of mp4, avi, mov, mkv,
    whatever precedes it, and a name without any '.' is rejected. For an
    ASCII extension, where str.lower turns A-Z into a-z and changes nothing
    else, the decision does not depend on the case of its letters. *)
Theorem allowed_file_by_last_extension
  (env : Env) (name ext plain : string) :
  (contains_dot ext = false ->
   allowed_file env (name ++ "." ++ ext)%string
   = existsb (String.eqb (str_lower env ext)) ALLOWED_EXTENSIONS) /\
  (contains_dot plain = false -> allowed_file env plain = false) /\
  (lower_agrees_on_ascii env ->
   is_ascii_string ext = true ->
   contains_dot ext = false ->
   allowed_file env (name ++ "." ++ ext)%string
   = existsb (String.eqb (lower ext)) ALLOWED_EXTENSIONS).
Proof.
  unfold allowed_file. split; [|split].
  - intros H. now rewrite (rsplit_dot_last name ext H).
  - intros H. now rewrite (rsplit_dot_none plain H).
  - intros Hlower Hascii H.
    now rewrite (rsplit_dot_last name ext H), (Hlower ext Hascii).
Qed.

(** ** extract_frames *)

(* one more index adds a saved frame exactly when it is a multiple of the
   interval *)
Lemma multiples_step (s k : Z) :
  0 < k ->
  (s + 1 + k - 1) / k - (s + k - 1) / k = if s mod k =? 0 then 1 else 0.
Proof.
  intros Hk.
  pose proof (Z.div_mod s k ltac:(lia)) as Hs.
  pose proof (Z.mod_pos_bound s k Hk) as Hr.
  assert (E1 : (s + 1 + k - 1) / k = s / k + 1).
  { symmetry. apply (Z.div_unique _ _ _ (s mod k)); lia. }
  rewrite E1.
  destruct (Z.eqb_spec (s mod k) 0) as [E|E].
  - assert (E2 : (s + k - 1) / k = s / k).
    { symmetry. apply (Z.div_unique _ _ _ (k - 1)); lia. }
    lia.
  - assert (E2 : (s + k - 1) / k = s / k + 1).
    { symmetry. apply (Z.div_unique _ _ _ (s mod k - 1)); lia. }
    lia.
Qed.

Lemma extract_loop_length (output_dir : string) (k : Z) (frames : list Frame) :
  0 < k ->
  forall (s : Z) (saved : list string),
    exists l,
      extract_loop output_dir k frames s saved = Ok l /\
      Z.of_nat (List.length l)
      = Z.of_nat (List.length saved)
        + ((s + Z.of_nat (List.length frames) + k - 1) / k - (s + k - 1) / k).
Proof.
  intros Hk. induction frames as [|frame rest IH]; intros s saved.
  - exists saved. split; [reflexivity|].
    simpl List.length. rewrite Z.add_0_r. lia.
  - cbn [extract_loop].
    destruct (Z.eqb_spec k 0) as [E|_]; [lia|].
    pose proof (multiples_step s k Hk) as Hstep.
    destruct (Z.eqb_spec (s mod k) 0) as [E|E].
    + destruct (IH (s + 1)
                  (saved ++ [os_path_join output_dir
                               ("frame_" ++ format_04d s ++ ".jpg")%string]))
        as (l & Hl & Hlen).
      exists l. split; [exact Hl|]. rewrite Hlen, length_app.
      cbn [List.length]. rewrite Nat2Z.inj_succ.
      replace (s + 1 + Z.of_nat (List.length rest) + k - 1)
        with (s + Z.succ (Z.of_nat (List.length rest)) + k - 1) by lia.
      rewrite Nat2Z.inj_add. simpl Z.of_nat. lia.
    + destruct (IH (s + 1) saved) as (l & Hl & Hlen).
      exists l. split; [exact Hl|]. rewrite Hlen.
      cbn [List.length]. rewrite Nat2Z.inj_succ.
      replace (s + 1 + Z.of_nat (List.length rest) + k - 1)
        with (s + Z.succ (Z.of_nat (List.length rest)) + k - 1) by lia.
      lia.
Qed.

(** X11: extract_frames returns the empty list when the video cannot be
    opened, and also when frame_interval is 0 and the video has a frame (the
    ZeroDivisionError of the modulo is swallowed by its except clause). For
    an opened video of n frames and a positive interval k it returns
    ceil(n / k) paths, one for every k-th frame beginning with the first. *)
Theorem extract_frames_count
  (cap : Video) (output_dir : string) (frame_interval : Z) :
  (isOpened cap = false ->
   extract_frames cap output_dir frame_interval = []) /\
  (video_frames cap <> [] -> extract_frames cap output_dir 0 = []) /\
  (isOpened cap = true -> 0 < frame_interval ->
   Z.of_nat (List.length (extract_frames cap output_dir frame_interval))
   = (Z.of_nat (List.length (video_frames cap)) + frame_interval - 1)
     / frame_interval).
Proof.
  unfold extract_frames. split; [|split].
  - intros H. now rewrite H.
  - intros H. destruct (isOpened cap); [|reflexivity]. cbn [negb].
    destruct (video_frames cap); [contradiction | reflexivity].
  - intros Hopen Hk. rewrite Hopen. cbn [negb].
    destruct (extract_loop_length output_dir frame_interval (video_frames cap)
                Hk 0 []) as (l & Hl & Hlen).
    rewrite Hl, Hlen. cbn [List.length]. simpl Z.of_nat.
    rewrite !Z.add_0_l. rewrite (Z.div_small (frame_interval - 1)) by lia.
    lia.
Qed.

(** ** The frame loop of process_video_yolo *)

Lemma lane_keys_nodup : NoDup lane_keys.
Proof.
  unfold lane_keys.
  repeat constructor; cbn [In];
    intros H; repeat destruct H as [H|H]; try exact H; discriminate H.
Qed.

Lemma count_box_effect (frame : Frame) (counts : dict Z) (assigned : option Z)
      (box : Box) :
  dict_keys counts = lane_keys ->
  dict_keys (fst (count_box frame (counts, assigned) box)) = lane_keys /\
  sum_counts (fst (count_box frame (counts, assigned) box))
  = sum_counts counts + (if is_vehicle box then 1 else 0) /\
  snd (count_box frame (counts, assigned) box)
  = if is_vehicle box then Some (shape1 frame) else assigned.
Proof.
  intros Hkeys. unfold count_box.
  destruct (is_vehicle box); [|cbn [fst snd]; repeat split; [easy | lia]].
  cbv zeta. cbn [fst snd].
  set (lane := if Qltb (x1 box) (inject_Z (shape1 frame / 4)) then "laneA"
               else if Qltb (x1 box) (inject_Z (shape1 frame / 4 * 2))
                    then "laneB"
                    else if Qltb (x1 box) (inject_Z (shape1 frame / 4 * 3))
                         then "laneC" else "laneD").
  assert (Hin : In lane (dict_keys counts)).
  { rewrite Hkeys. unfold lane, lane_keys.
    destruct (Qltb (x1 box) (inject_Z (shape1 frame / 4)));
      [cbn; tauto|].
    destruct (Qltb (x1 box) (inject_Z (shape1 frame / 4 * 2)));
      [cbn; tauto|].
    destruct (Qltb (x1 box) (inject_Z (shape1 frame / 4 * 3)));
      cbn; tauto. }
  rewrite increment_keys, sum_counts_increment by exact Hin. easy.
Qed.

Lemma count_boxes_effect (frame : Frame) (boxes : list Box) :
  forall (counts : dict Z) (assigned : option Z),
    dict_keys counts = lane_keys ->
    dict_keys (fst (fold_left (count_box frame) boxes (counts, assigned)))
    = lane_keys /\
    sum_counts (fst (fold_left (count_box frame) boxes (counts, assigned)))
    = sum_counts counts + Z.of_nat (List.length (filter is_vehicle boxes)) /\
    snd (fold_left (count_box frame) boxes (counts, assigned))
    = if existsb is_vehicle boxes then Some (shape1 frame) else assigned.
Proof.
  induction boxes as [|box rest IH]; intros counts assigned Hkeys.
  - cbn [fold_left filter existsb fst snd List.length Z.of_nat].
    split; [exact Hkeys|]. split; [lia | reflexivity].
  - cbn [fold_left filter existsb].
    destruct (count_box_effect frame counts assigned box Hkeys)
      as (Hk & Hs & Ha).
    destruct (count_box frame (counts, assigned) box) as [counts' assigned'].
    cbn [fst snd] in Hk, Hs, Ha.
    destruct (IH counts' assigned' Hk) as (Hk' & Hs' & Ha').
    split; [exact Hk'|]. split.
    + rewrite Hs', Hs. destruct (is_vehicle box);
        cbn [List.length]; rewrite ?Nat2Z.inj_succ; lia.
    + rewrite Ha', Ha. destruct (is_vehicle box); cbn [orb];
        now destruct (existsb is_vehicle rest).
Qed.

(* what the locals are when the loop runs to its end *)
Lemma frame_loop_result (env : Env) (total_frames : Z) (frames : list Frame) :
  forall (locals locals' : Locals) (w w' : World),
    dict_keys (vehicle_counts locals) = lane_keys ->
    frame_loop env total_frames frames locals w = (Ok locals', w') ->
    dict_keys (vehicle_counts locals') = lane_keys /\
    sum_counts (vehicle_counts locals')
    = sum_counts (vehicle_counts locals) + vehicles_in_frames frames /\
    frame_count locals'
    = frame_count locals + Z.of_nat (List.length frames).
Proof.
  induction frames as [|frame rest IH]; intros locals locals' w w' Hkeys Hrun.
  - cbn [frame_loop ret] in Hrun. injection Hrun as <- <-.
    cbn [vehicles_in_frames fold_right List.length Z.of_nat].
    split; [exact Hkeys|]. split; lia.
  - cbn [frame_loop] in Hrun. unfold bind in Hrun.
    destruct (Z.eqb total_frames 0); [discriminate|].
    cbn [set_progress] in Hrun. unfold lift in Hrun.
    destruct (detections frame) as [boxes|e] eqn:Edet; [|discriminate].
    destruct (count_boxes_effect frame boxes (vehicle_counts locals)
                (frame_width locals) Hkeys) as (Hk & Hs & Ha).
    destruct (fold_left (count_box frame) boxes
                (vehicle_counts locals, frame_width locals))
      as [counts' assigned'].
    cbn [fst snd] in Hk, Hs, Ha.
    destruct assigned' as [width|]; [|discriminate].
    apply IH in Hrun; [|exact Hk]. cbn [vehicle_counts frame_count] in Hrun.
    destruct Hrun as (Hk' & Hs' & Hc').
    split; [exact Hk'|]. split.
    + rewrite Hs', Hs. cbn [vehicles_in_frames fold_right].
      fold (vehicles_in_frames rest).
      unfold vehicles_in. rewrite Edet. lia.
    + rewrite Hc'. cbn [List.length]. rewrite Nat2Z.inj_succ. lia.
Qed.

Lemma frame_loop_completes (env : Env) (total_frames : Z)
      (frames : list Frame) :
  forall (locals : Locals) (w : World),
    dict_keys (vehicle_counts locals) = lane_keys ->
    is_ok (fst (frame_loop env total_frames frames locals w))
    = loop_completes total_frames frames
        (match frame_width locals with Some _ => true | None => false end).
Proof.
  induction frames as [|frame rest IH]; intros locals w Hkeys.
  - reflexivity.
  - cbn [frame_loop loop_completes forallb]. unfold bind.
    destruct (Z.eqb total_frames 0) eqn:E0; [reflexivity|].
    cbn [set_progress negb andb]. unfold lift, frame_detects at 1,
      frame_has_vehicle.
    destruct (detections frame) as [boxes|e] eqn:Edet; [|reflexivity].
    destruct (count_boxes_effect frame boxes (vehicle_counts locals)
                (frame_width locals) Hkeys) as (Hk & _ & Ha).
    destruct (fold_left (count_box frame) boxes
                (vehicle_counts locals, frame_width locals))
      as [counts' assigned'].
    cbn [fst snd] in Hk, Ha. subst assigned'. cbn [andb].
    assert (Hrest : forall (locals1 : Locals) (w1 : World) (width : Z),
               dict_keys (vehicle_counts locals1) = lane_keys ->
               frame_width locals1 = Some width ->
               is_ok (fst (frame_loop env total_frames rest locals1 w1))
               = forallb frame_detects rest).
    { intros locals1 w1 width Hk1 Hw1. rewrite IH by exact Hk1.
      rewrite Hw1. unfold loop_completes.
      destruct rest as [|next rest']; [reflexivity|].
      rewrite E0. cbn [negb andb orb]. now rewrite andb_true_r. }
    destruct (existsb is_vehicle boxes) eqn:Ev.
    + rewrite (Hrest (mkLocals (frame_count locals + 1) counts'
                                (Some (shape1 frame)))
                     _ (shape1 frame) Hk eq_refl).
      now rewrite orb_true_r, andb_true_r.
    + destruct (frame_width locals) as [width|].
      * rewrite (Hrest (mkLocals (frame_count locals + 1) counts'
                                  (Some width))
                       _ width Hk eq_refl). cbn [orb].
        now rewrite andb_true_r.
      * cbn [orb]. now rewrite andb_false_r.
Qed.

Lemma timing_of_lane_counts (vehicle_counts : dict Z) :
  dict_keys vehicle_counts = lane_keys ->
  exists signals,
    calculate_signal_timing vehicle_counts = Ok signals /\
    state_invariant signals /\
    counts_map signals = vehicle_counts.
Proof.
  intros Hkeys.
  assert (Hwf : dict_wf vehicle_counts).
  { unfold dict_wf. rewrite Hkeys. apply lane_keys_nodup. }
  assert (Hne : vehicle_counts <> []).
  { intros E. rewrite E in Hkeys. discriminate. }
  destruct (timing_shape vehicle_counts Hwf Hne) as (m & _ & Hin & Happ & _).
  exists (map (table_entry None None m) vehicle_counts).
  split; [exact Happ|]. split; [|apply counts_map_table].
  split.
  - now rewrite table_keys.
  - rewrite table_green_lanes by easy. cbn. lia.
Qed.

Lemma timing_result_invariant (vehicle_counts : dict Z) (signals : SignalState) :
  dict_keys vehicle_counts = lane_keys ->
  calculate_signal_timing vehicle_counts = Ok signals ->
  state_invariant signals /\ counts_map signals = vehicle_counts.
Proof.
  intros Hkeys Hrun.
  destruct (timing_of_lane_counts vehicle_counts Hkeys) as (s & Hs & Hinv & Hc).
  assert (s = signals) by congruence. subst s. now split.
Qed.

(* process_video_yolo on a file that is in the upload folder *)
Lemma process_video_yolo_run
  (env : Env) (video_path : string) (cap : Video) (w : World) :
  YOLO_AVAILABLE env = true ->
  dict_get (uploads w) video_path = Some cap ->
  process_video_yolo env video_path w
  = if yolo_loads env then
      if isOpened cap then
        match frame_loop env (CAP_PROP_FRAME_COUNT cap) (video_frames cap)
                initial_locals w with
        | (Ok locals, w') =>
            match calculate_signal_timing (vehicle_counts locals) with
            | Ok signals =>
                (Ok (ProcessOk (vehicle_counts locals) signals
                       (frame_count locals)
                       "Video processed successfully with YOLO"), w')
            | Raise e =>
                (Ok (ProcessFailed e
                       "Error processing video with YOLO, falling back to dummy mode"),
                 w')
            end
        | (Raise e, w') =>
            (Ok (ProcessFailed e
                   "Error processing video with YOLO, falling back to dummy mode"),
             w')
        end
      else
        (Ok (ProcessFailed (Exception_ "Could not open video file")
               "Error processing video with YOLO, falling back to dummy mode"),
         w)
    else
      (Ok (ProcessFailed (Exception_ "model could not be loaded")
             "Error processing video with YOLO, falling back to dummy mode"),
       w).
Proof.
  intros Hy Hget. unfold process_video_yolo. rewrite Hy. cbn [negb].
  unfold try_except, bind.
  destruct (yolo_loads env); cbn [ret raise read_uploads]; [|reflexivity].
  rewrite Hget. destruct (isOpened cap); cbn [negb raise]; [|reflexivity].
  fold initial_locals.
  destruct (frame_loop env (CAP_PROP_FRAME_COUNT cap) (video_frames cap)
              initial_locals w) as [[locals|e] w']; [|reflexivity].
  unfold lift.
  destruct (calculate_signal_timing (vehicle_counts locals)); reflexivity.
Qed.

(** X12: when process_video_yolo returns a success dictionary for an
    uploaded file, its vehicle_counts have exactly the keys laneA to laneD,
    the four counts add up to the number of boxes, over all frames, that
    pass the vehicle filter (each such box is counted in exactly one lane),
    processed_frames is the number of frames read, and the signals are the
    timing computed from those counts. *)
Theorem yolo_counts_each_vehicle_once
  (env : Env) (video_path : string) (cap : Video) (w w' : World)
  (counts : dict Z) (signals : SignalState) (processed_frames : Z)
  (message : string) :
  YOLO_AVAILABLE env = true ->
  dict_get (uploads w) video_path = Some cap ->
  process_video_yolo env video_path w
  = (Ok (ProcessOk counts signals processed_frames message), w') ->
  dict_keys counts = lane_keys /\
  sum_counts counts = vehicles_in_frames (video_frames cap) /\
  processed_frames = Z.of_nat (List.length (video_frames cap)) /\
  calculate_signal_timing counts = Ok signals.
Proof.
  intros Hy Hget Hrun.
  rewrite (process_video_yolo_run env video_path cap w Hy Hget) in Hrun.
  destruct (yolo_loads env); [|discriminate].
  destruct (isOpened cap); [|discriminate].
  destruct (frame_loop env (CAP_PROP_FRAME_COUNT cap) (video_frames cap)
              initial_locals w) as [[locals|e] w1] eqn:Eloop; [|discriminate].
  destruct (calculate_signal_timing (vehicle_counts locals)) as [s|e] eqn:Et;
    [|discriminate].
  injection Hrun as <- <- <- <- <-.
  destruct (frame_loop_result env _ _ initial_locals locals w w1 eq_refl Eloop)
    as (Hk & Hs & Hc).
  split; [exact Hk|]. split; [|split; [|exact Et]].
  - rewrite Hs. cbn. lia.
  - rewrite Hc. cbn. lia.
Qed.

Lemma yolo_counts_each_vehicle_once_witness :
  let w := mkWorld published_data (mkStatus processing 0)
                   [(clip_path, one_car_video)] in
  let counts := [("laneA", 0); ("laneB", 0); ("laneC", 1); ("laneD", 0)] in
  let signals := [("laneA", mkLaneData 0 Red 15 None);
                  ("laneB", mkLaneData 0 Red 15 None);
                  ("laneC", mkLaneData 1 Green 15 None);
                  ("laneD", mkLaneData 0 Red 15 None)] in
  YOLO_AVAILABLE yolo_env = true /\
  dict_get (uploads w) clip_path = Some one_car_video /\
  process_video_yolo yolo_env clip_path w
  = (Ok (ProcessOk counts signals 1
           "Video processed successfully with YOLO"),
     mkWorld published_data (mkStatus processing 100)
             [(clip_path, one_car_video)]) /\
  dict_keys counts = lane_keys /\
  sum_counts counts = vehicles_in_frames (video_frames one_car_video) /\
  1 = Z.of_nat (List.length (video_frames one_car_video)) /\
  calculate_signal_timing counts = Ok signals.
Proof.
  intros w counts signals.
  assert (H1 : YOLO_AVAILABLE yolo_env = true) by reflexivity.
  assert (H2 : dict_get (uploads w) clip_path = Some one_car_video)
    by reflexivity.
  assert (H3 : process_video_yolo yolo_env clip_path w
               = (Ok (ProcessOk counts signals 1
                        "Video processed successfully with YOLO"),
                  mkWorld published_data (mkStatus processing 100)
                          [(clip_path, one_car_video)]))
    by reflexivity.
  split; [exact H1|]. split; [exact H2|]. split; [exact H3|].
  exact (yolo_counts_each_vehicle_once yolo_env clip_path one_car_video w _
           counts signals 1 _ H1 H2 H3).
Defined.

(** X13: process_video_yolo succeeds on an uploaded file exactly when the
    model loads, the file opens and either it has no frame at all, or its
    frame count is not 0, the detector answers on every frame and the first
    frame contains a box that passes the vehicle filter. In particular a
    video whose first frame shows no vehicle fails, and a video without
    frames succeeds. *)
Theorem yolo_succeeds_exactly_when
  (env : Env) (video_path : string) (cap : Video) (w : World) :
  YOLO_AVAILABLE env = true ->
  dict_get (uploads w) video_path = Some cap ->
  succeeded (process_video_yolo env video_path w) = yolo_accepts env cap.
Proof.
  intros Hy Hget.
  rewrite (process_video_yolo_run env video_path cap w Hy Hget).
  unfold yolo_accepts, succeeded.
  destruct (yolo_loads env); [|reflexivity].
  destruct (isOpened cap); [|reflexivity]. cbn [andb].
  pose proof (frame_loop_completes env (CAP_PROP_FRAME_COUNT cap)
                (video_frames cap) initial_locals w eq_refl) as Hdone.
  cbn [frame_width initial_locals] in Hdone.
  unfold loop_completes in Hdone. cbn [orb] in Hdone.
  destruct (frame_loop env (CAP_PROP_FRAME_COUNT cap) (video_frames cap)
              initial_locals w) as [[locals|e] w1] eqn:Eloop.
  - destruct (frame_loop_result env _ _ initial_locals locals w w1
                eq_refl Eloop) as (Hk & _ & _).
    destruct (timing_of_lane_counts _ Hk) as (s & Hs & _).
    rewrite Hs. cbn [fst success is_ok] in *. exact Hdone.
  - cbn [fst success is_ok] in *. exact Hdone.
Qed.

Lemma yolo_succeeds_exactly_when_witness :
  let w := mkWorld published_data (mkStatus processing 0)
                   [(clip_path, empty_road_video)] in
  YOLO_AVAILABLE yolo_env = true /\
  dict_get (uploads w) clip_path = Some empty_road_video /\
  succeeded (process_video_yolo yolo_env clip_path w)
  = yolo_accepts yolo_env empty_road_video /\
  yolo_accepts yolo_env empty_road_video = false.
Proof.
  intros w.
  assert (H1 : YOLO_AVAILABLE yolo_env = true) by reflexivity.
  assert (H2 : dict_get (uploads w) clip_path = Some empty_road_video)
    by reflexivity.
  split; [exact H1|]. split; [exact H2|].
  split; [|reflexivity].
  exact (yolo_succeeds_exactly_when yolo_env clip_path empty_road_video w H1 H2).
Defined.

(** ** Dummy mode *)

(** X14: when random.randint keeps to its ranges, process_video_dummy always
    returns a success dictionary with processed_frames 0, leaves the progress
    at 100 and the published state untouched, and its signals have exactly
    one Green lane whose count lies between 8 and 20: since lane A draws at
    least 8 vehicles the Green duration in dummy mode is 20, 25 or 30
    seconds, never 15. *)
Theorem dummy_mode_green_time_at_least_20
  (env : Env) (video_path : string) (w : World) :
  randint_in_range env ->
  exists counts signals lane n,
    process_video_dummy env video_path w
    = (Ok (ProcessOk counts signals 0
             "Video processed in dummy mode (random data)"),
       mkWorld (current_video_data w)
               (mkStatus (status (processing_status w)) 100)
               (uploads w)) /\
    dict_keys counts = lane_keys /\
    green_lanes signals = [lane] /\
    dict_get signals lane
    = Some (mkLaneData n Green (Config.get_signal_timing n) None) /\
    8 <= n <= 20 /\
    20 <= Config.get_signal_timing n <= 30.
Proof.
  intros Hrand.
  set (c := fun l => match l with
                     | LaneA => randint env 8 20
                     | LaneB => randint env 5 15
                     | LaneC => randint env 6 18
                     | LaneD => randint env 4 16
                     end).
  set (counts := ascending_counts lane_key c).
  assert (Hwf : dict_wf counts)
    by apply ascending_counts_wf, lane_key_injective.
  assert (Hne : counts <> []) by discriminate.
  destruct (timing_shape counts Hwf Hne) as (m & Hm & Hin & Happ & _).
  set (n := counts_get counts m).
  exists counts, (map (table_entry None None m) counts), m, n.
  assert (Hrange : 8 <= n <= 20).
  { pose proof (Hrand 8 20 ltac:(lia)). pose proof (Hrand 5 15 ltac:(lia)).
    pose proof (Hrand 6 18 ltac:(lia)). pose proof (Hrand 4 16 ltac:(lia)).
    split.
    - unfold chosen_lane in Hm.
      change (Ok (max_from (counts_get counts) (lane_key LaneA)
                    [lane_key LaneB; lane_key LaneC; lane_key LaneD]) = Ok m)
        in Hm.
      assert (Hm' : max_from (counts_get counts) (lane_key LaneA)
                      [lane_key LaneB; lane_key LaneC; lane_key LaneD] = m)
        by congruence.
      pose proof (max_from_upper (counts_get counts) (lane_key LaneA)
                    [lane_key LaneB; lane_key LaneC; lane_key LaneD]
                    (lane_key LaneA) ltac:(now left)) as Hup.
      rewrite Hm' in Hup. fold n in Hup.
      assert (EA : counts_get counts (lane_key LaneA) = randint env 8 20)
        by reflexivity.
      lia.
    - unfold n. cbn [In counts ascending_counts dict_keys map fst] in Hin.
      destruct Hin as [<-|[<-|[<-|[<-|[]]]]];
        [change (randint env 8 20 <= 20) | change (randint env 5 15 <= 20)
        |change (randint env 6 18 <= 20) | change (randint env 4 16 <= 20)];
        lia. }
  split.
  - unfold process_video_dummy, try_except, bind.
    cbn [set_progress for_each range seq map Z.of_nat ret lift
         current_video_data processing_status uploads status progress].
    change [("laneA", randint env 8 20); ("laneB", randint env 5 15);
            ("laneC", randint env 6 18); ("laneD", randint env 4 16)]
      with counts.
    rewrite Happ. reflexivity.
  - split; [reflexivity|]. split; [now apply table_green_lanes|]. split.
    + rewrite dict_get_table. unfold n, counts_get.
      destruct (dict_get counts m) as [k|] eqn:Eget.
      * cbn [option_map table_entry fst snd]. now rewrite String.eqb_refl.
      * apply dict_get_none_iff in Eget. contradiction.
    + split; [exact Hrange|].
      unfold Config.get_signal_timing, Config.DENSITY_low,
        Config.DENSITY_medium, Config.DENSITY_high, Config.BASE_GREEN_TIME,
        Config.MAX_GREEN_TIME.
      destruct (Z.leb_spec n 5), (Z.leb_spec n 10), (Z.leb_spec n 15); lia.
Qed.

Lemma dummy_mode_green_time_at_least_20_witness :
  let env := mkEnv false false (fun _ _ => 0) (fun lo hi => hi)
                   (fun name => name) "20240101_120000" SaveOk false lower in
  randint_in_range env /\
  exists counts signals lane n,
    process_video_dummy env clip_path world_after_job
    = (Ok (ProcessOk counts signals 0
             "Video processed in dummy mode (random data)"),
       mkWorld (current_video_data world_after_job)
               (mkStatus (status (processing_status world_after_job)) 100)
               (uploads world_after_job)) /\
    dict_keys counts = lane_keys /\
    green_lanes signals = [lane] /\
    dict_get signals lane
    = Some (mkLaneData n Green (Config.get_signal_timing n) None) /\
    8 <= n <= 20 /\
    20 <= Config.get_signal_timing n <= 30.
Proof.
  intros env.
  assert (H : randint_in_range env).
  { intros lo hi Hle. cbn. lia. }
  split; [exact H|].
  exact (dummy_mode_green_time_at_least_20 env clip_path world_after_job H).
Defined.

(** ** Uploads *)

(** X15: a request without a 'video' part, with an empty filename or with a
    filename allowed_file rejects is answered 400 by process_video and by
    upload_video, and the whole state (published signals, processing status
    and upload folder) is exactly as before: no file is saved and no job
    started. *)
Theorem invalid_upload_changes_nothing
  (env : Env) (request : UploadRequest) (w : World) :
  match files_video request with
  | None => True
  | Some (name, _) => name = "" \/ allowed_file env name = false
  end ->
  (exists text,
      process_video env request w = (Ok (mkResponse 400 (ErrorBody text)), w)) /\
  (exists text,
      upload_video env request w
      = (Ok (mkUploadResponse 400 (UploadErrorBody text)), w)).
Proof.
  intros H. unfold process_video, upload_video, try_except.
  destruct (files_video request) as [[name content]|].
  - destruct (String.eqb_spec name "") as [E|E].
    + split; eexists; reflexivity.
    + destruct H as [H|H]; [contradiction|]. rewrite H.
      split; eexists; reflexivity.
  - split; eexists; reflexivity.
Qed.

Lemma invalid_upload_changes_nothing_witness :
  let request := mkUpload (Some ("notes.txt", one_car_video)) in
  match files_video request with
  | None => True
  | Some (name, _) => name = "" \/ allowed_file yolo_env name = false
  end /\
  (exists text,
      process_video yolo_env request busy_world
      = (Ok (mkResponse 400 (ErrorBody text)), busy_world)) /\
  (exists text,
      upload_video yolo_env request busy_world
      = (Ok (mkUploadResponse 400 (UploadErrorBody text)), busy_world)).
Proof.
  intros request.
  assert (H : match files_video request with
              | None => True
              | Some (name, _) => name = "" \/ allowed_file yolo_env name = false
              end).
  { cbn. right. reflexivity. }
  split; [exact H|].
  exact (invalid_upload_changes_nothing yolo_env request busy_world H).
Defined.

(** X16: upload_video never changes the published signal state or the
    processing status, whatever the request and whatever file.save does. For
    an accepted upload that is saved it answers 200 with the stored name,
    timestamp, '_' and the secured filename, and the file is in the upload
    folder under that name when it returns: unlike process_video it does not
    remove it. *)
Theorem upload_video_stores_and_keeps_the_file
  (env : Env) (request : UploadRequest) (w : World) :
  current_video_data (snd (upload_video env request w)) = current_video_data w /\
  processing_status (snd (upload_video env request w)) = processing_status w /\
  (forall name content,
      files_video request = Some (name, content) ->
      name <> "" ->
      allowed_file env name = true ->
      save_outcome env = SaveOk ->
      fst (upload_video env request w)
      = Ok (mkUploadResponse 200
              (UploadedBody (now env ++ "_" ++ secure_filename env name)%string)) /\
      dict_get (uploads (snd (upload_video env request w)))
               (video_path_of env name)
      = Some content).
Proof.
  unfold upload_video, try_except, bind, file_save.
  destruct request as [file]. cbn [files_video].
  destruct file as [[name content]|].
  2:{ split; [reflexivity|]. split; [reflexivity|].
      intros n c H. discriminate. }
  destruct (String.eqb_spec name "") as [E|E].
  { split; [reflexivity|]. split; [reflexivity|].
    intros n c H Hn. injection H as <- <-. contradiction. }
  destruct (allowed_file env name) eqn:Ea.
  2:{ split; [reflexivity|]. split; [reflexivity|].
      intros n c H _ Ha. injection H as <- <-. congruence. }
  destruct (save_outcome env) eqn:Es;
    cbn [read_uploads set_uploads raise ret fst snd
         current_video_data processing_status uploads];
    (split; [reflexivity|]; split; [reflexivity|]);
    intros n c H _ _ Hs; injection H as <- <-; try discriminate.
  split; [reflexivity|]. unfold video_path_of. apply dict_get_set_same.
Qed.

Lemma dict_del_set_fresh {V : Type} (d : dict V) (k : string) (v : V) :
  dict_mem k d = false -> dict_del (dict_set d k v) k = d.
Proof.
  unfold dict_mem.
  induction d as [|[k' v'] t IH]; simpl; intros H.
  - now rewrite String.eqb_refl.
  - destruct (String.eqb_spec k' k) as [->|Hne]; [discriminate|].
    simpl. destruct (String.eqb_spec k' k); [contradiction|].
    now rewrite IH.
Qed.

(** X17: when the file operations work and no file of the same name is in
    the upload folder, process_video on an accepted upload runs the
    processing step on the saved file, from status processing and progress
    0, answers 200 with the result of that run, leaves the upload folder
    exactly as it found it, sets the status to completed with progress 100,
    and publishes the result's signals if the result is a success and
    nothing otherwise. *)
Theorem process_video_accepted_upload_outcome
  (env : Env) (name : string) (content : Video) (w : World) :
  name <> "" ->
  allowed_file env name = true ->
  save_outcome env = SaveOk ->
  remove_raises env = false ->
  dict_mem (video_path_of env name) (uploads w) = false ->
  exists result w',
    run_processing env (video_path_of env name) (job_world env name content w)
    = (Ok result, w') /\
    process_video env (mkUpload (Some (name, content))) w
    = (Ok (mkResponse 200 (ProcessBody result)),
       mkWorld (published_after result (current_video_data w))
               (mkStatus completed 100) (uploads w)) /\
    (success result = false ->
     published_after result (current_video_data w) = current_video_data w).
Proof.
  intros Hname Hallowed Hsave Hremove Hfresh.
  destruct (process_video_accepted env name content w Hname Hallowed Hsave)
    as (result & w' & Hproc & Hrun).
  exists result, w'. split; [exact Hproc|]. rewrite Hrun, Hremove.
  rewrite dict_del_set_fresh by exact Hfresh.
  split; [reflexivity|]. intros Hfail.
  destruct result; [discriminate | reflexivity].
Qed.

Lemma process_video_accepted_upload_outcome_witness :
  "clip.mp4" <> "" /\
  allowed_file yolo_env "clip.mp4" = true /\
  save_outcome yolo_env = SaveOk /\
  remove_raises yolo_env = false /\
  dict_mem (video_path_of yolo_env "clip.mp4") (uploads busy_world) = false /\
  exists result w',
    run_processing yolo_env (video_path_of yolo_env "clip.mp4")
      (job_world yolo_env "clip.mp4" one_car_video busy_world)
    = (Ok result, w') /\
    process_video yolo_env (mkUpload (Some ("clip.mp4", one_car_video)))
      busy_world
    = (Ok (mkResponse 200 (ProcessBody result)),
       mkWorld (published_after result (current_video_data busy_world))
               (mkStatus completed 100) (uploads busy_world)) /\
    (success result = false ->
     published_after result (current_video_data busy_world)
     = current_video_data busy_world).
Proof.
  assert (H1 : "clip.mp4" <> "") by discriminate.
  assert (H2 : allowed_file yolo_env "clip.mp4" = true) by reflexivity.
  assert (H3 : save_outcome yolo_env = SaveOk) by reflexivity.
  assert (H4 : remove_raises yolo_env = false) by reflexivity.
  assert (H5 : dict_mem (video_path_of yolo_env "clip.mp4")
                        (uploads busy_world) = false) by reflexivity.
  repeat (split; [assumption|]).
  exact (process_video_accepted_upload_outcome yolo_env "clip.mp4"
           one_car_video busy_world H1 H2 H3 H4 H5).
Defined.

(** ** Sequences of simulate_traffic and reset_signals *)

Lemma dict_set_comm {V : Type} (d : dict V) (k1 k2 : string) (v1 v2 : V) :
  k1 <> k2 ->
  In k1 (dict_keys d) -> In k2 (dict_keys d) ->
  dict_set (dict_set d k1 v1) k2 v2 = dict_set (dict_set d k2 v2) k1 v1.
Proof.
  intros Hne. induction d as [|[k v] t IH]; simpl; intros H1 H2; [easy|].
  destruct (String.eqb_spec k k1) as [E1|N1];
    destruct (String.eqb_spec k k2) as [E2|N2]; simpl.
  - congruence.
  - subst k. rewrite String.eqb_refl. now destruct (String.eqb_spec k1 k2).
  - subst k. rewrite String.eqb_refl. now destruct (String.eqb_spec k2 k1).
  - destruct (String.eqb_spec k k1); [congruence|].
    destruct (String.eqb_spec k k2); [congruence|].
    f_equal. apply IH.
    + destruct H1; [congruence | easy].
    + destruct H2; [congruence | easy].
Qed.

Lemma dict_set_set {V : Type} (d : dict V) (k : string) (v1 v2 : V) :
  dict_set (dict_set d k v1) k v2 = dict_set d k v2.
Proof.
  induction d as [|[k' v'] t IH]; simpl.
  - now rewrite String.eqb_refl.
  - destruct (String.eqb_spec k' k) as [->|Hne]; simpl.
    + now rewrite String.eqb_refl.
    + destruct (String.eqb_spec k' k); [contradiction|]. now rewrite IH.
Qed.

(* the state a valid simulate_traffic call leaves *)
Lemma simulate_traffic_state
  (env : Env) (w : World) (lane : string) (n : Z) :
  dict_wf (current_video_data w) ->
  In ("lane" ++ lane)%string (dict_keys (current_video_data w)) ->
  let w' := snd (simulate_traffic env (mkSimulate (Some (Some lane, Some n))) w) in
  calculate_signal_timing
    (dict_set (counts_map (current_video_data w)) ("lane" ++ lane)%string n)
  = Ok (current_video_data w') /\
  dict_wf (current_video_data w') /\
  dict_keys (current_video_data w') = dict_keys (current_video_data w) /\
  counts_map (current_video_data w')
  = dict_set (counts_map (current_video_data w)) ("lane" ++ lane)%string n /\
  processing_status w' = processing_status w /\
  uploads w' = uploads w.
Proof.
  intros Hwf Hin.
  destruct (simulate_traffic_valid env w lane n Hwf Hin)
    as (data & Htiming & Hkeys & _ & Hrun).
  rewrite Hrun. cbn [snd current_video_data processing_status uploads].
  split; [exact Htiming|].
  assert (Hdwf : dict_wf data) by (unfold dict_wf; now rewrite Hkeys).
  split; [exact Hdwf|]. split; [exact Hkeys|]. split; [|easy].
  set (vc := dict_set (counts_map (current_video_data w))
                      ("lane" ++ lane)%string n) in *.
  assert (Hvwf : dict_wf vc).
  { apply dict_wf_set. unfold dict_wf. now rewrite counts_map_keys. }
  assert (Hvne : vc <> []).
  { intros E. rewrite E in Htiming. discriminate. }
  destruct (timing_shape vc Hvwf Hvne) as (m & _ & _ & Happ & _).
  assert (data = map (table_entry None None m) vc) by congruence. subst data.
  apply counts_map_table.
Qed.

(** X18: two simulate_traffic calls on different valid lanes can be made in
    either order: the published state after both is the same. *)
Theorem simulate_traffic_order_independent
  (env : Env) (w : World) (lane1 lane2 : string) (n1 n2 : Z) :
  dict_wf (current_video_data w) ->
  In ("lane" ++ lane1)%string (dict_keys (current_video_data w)) ->
  In ("lane" ++ lane2)%string (dict_keys (current_video_data w)) ->
  lane1 <> lane2 ->
  current_video_data
    (snd (simulate_traffic env (mkSimulate (Some (Some lane2, Some n2)))
            (snd (simulate_traffic env
                    (mkSimulate (Some (Some lane1, Some n1))) w))))
  = current_video_data
      (snd (simulate_traffic env (mkSimulate (Some (Some lane1, Some n1)))
              (snd (simulate_traffic env
                      (mkSimulate (Some (Some lane2, Some n2))) w)))).
Proof.
  intros Hwf H1 H2 Hne.
  destruct (simulate_traffic_state env w lane1 n1 Hwf H1)
    as (_ & Hwf1 & Hk1 & Hc1 & _).
  destruct (simulate_traffic_state env w lane2 n2 Hwf H2)
    as (_ & Hwf2 & Hk2 & Hc2 & _).
  set (w1 := snd (simulate_traffic env
                    (mkSimulate (Some (Some lane1, Some n1))) w)) in *.
  set (w2 := snd (simulate_traffic env
                    (mkSimulate (Some (Some lane2, Some n2))) w)) in *.
  assert (H21 : In ("lane" ++ lane2)%string (dict_keys (current_video_data w1)))
    by now rewrite Hk1.
  assert (H12 : In ("lane" ++ lane1)%string (dict_keys (current_video_data w2)))
    by now rewrite Hk2.
  destruct (simulate_traffic_state env w1 lane2 n2 Hwf1 H21) as (Ha & _).
  destruct (simulate_traffic_state env w2 lane1 n1 Hwf2 H12) as (Hb & _).
  rewrite Hc1 in Ha. rewrite Hc2 in Hb.
  rewrite dict_set_comm in Ha.
  - congruence.
  - intros E. apply Hne. simpl in E. now injection E.
  - now rewrite counts_map_keys.
  - now rewrite counts_map_keys.
Qed.

Lemma simulate_traffic_order_independent_witness :
  dict_wf (current_video_data world_after_job) /\
  In "laneA" (dict_keys (current_video_data world_after_job)) /\
  In "laneD" (dict_keys (current_video_data world_after_job)) /\
  "A" <> "D" /\
  current_video_data
    (snd (simulate_traffic yolo_env (mkSimulate (Some (Some "D", Some 30)))
            (snd (simulate_traffic yolo_env
                    (mkSimulate (Some (Some "A", Some 25))) world_after_job))))
  = current_video_data
      (snd (simulate_traffic yolo_env (mkSimulate (Some (Some "A", Some 25)))
              (snd (simulate_traffic yolo_env
                      (mkSimulate (Some (Some "D", Some 30)))
                      world_after_job)))).
Proof.
  assert (Hwf : dict_wf (current_video_data world_after_job))
    by apply lane_keys_nodup.
  assert (H1 : In "laneA" (dict_keys (current_video_data world_after_job)))
    by (cbn; tauto).
  assert (H2 : In "laneD" (dict_keys (current_video_data world_after_job)))
    by (cbn; tauto).
  assert (Hne : "A" <> "D") by discriminate.
  split; [exact Hwf|]. split; [exact H1|]. split; [exact H2|].
  split; [exact Hne|].
  exact (simulate_traffic_order_independent yolo_env world_after_job
           "A" "D" 25 30 Hwf H1 H2 Hne).
Defined.

(** X19: a second simulate_traffic call on the same lane overrides the
    first: the published state is the one the second call alone would give,
    so repeating a call changes nothing. *)
Theorem simulate_traffic_last_count_wins
  (env : Env) (w : World) (lane : string) (n1 n2 : Z) :
  dict_wf (current_video_data w) ->
  In ("lane" ++ lane)%string (dict_keys (current_video_data w)) ->
  current_video_data
    (snd (simulate_traffic env (mkSimulate (Some (Some lane, Some n2)))
            (snd (simulate_traffic env
                    (mkSimulate (Some (Some lane, Some n1))) w))))
  = current_video_data
      (snd (simulate_traffic env (mkSimulate (Some (Some lane, Some n2))) w)).
Proof.
  intros Hwf Hin.
  destruct (simulate_traffic_state env w lane n1 Hwf Hin)
    as (_ & Hwf1 & Hk1 & Hc1 & _).
  destruct (simulate_traffic_state env w lane n2 Hwf Hin) as (Hb & _).
  set (w1 := snd (simulate_traffic env
                    (mkSimulate (Some (Some lane, Some n1))) w)) in *.
  assert (Hin1 : In ("lane" ++ lane)%string (dict_keys (current_video_data w1)))
    by now rewrite Hk1.
  destruct (simulate_traffic_state env w1 lane n2 Hwf1 Hin1) as (Ha & _).
  rewrite Hc1, dict_set_set in Ha. congruence.
Qed.

Lemma simulate_traffic_last_count_wins_witness :
  dict_wf (current_video_data world_after_job) /\
  In "laneB" (dict_keys (current_video_data world_after_job)) /\
  current_video_data
    (snd (simulate_traffic yolo_env (mkSimulate (Some (Some "B", Some 18)))
            (snd (simulate_traffic yolo_env
                    (mkSimulate (Some (Some "B", Some 40))) world_after_job))))
  = current_video_data
      (snd (simulate_traffic yolo_env (mkSimulate (Some (Some "B", Some 18)))
              world_after_job)).
Proof.
  assert (Hwf : dict_wf (current_video_data world_after_job))
    by apply lane_keys_nodup.
  assert (Hin : In "laneB" (dict_keys (current_video_data world_after_job)))
    by (cbn; tauto).
  split; [exact Hwf|]. split; [exact Hin|].
  exact (simulate_traffic_last_count_wins yolo_env world_after_job "B" 40 18
           Hwf Hin).
Defined.

Lemma one_lane_counts_priority (l : LaneId) (n : Z) :
  0 < n -> spec_priority_lane (one_lane_counts l n) = l.
Proof.
  intros Hn. unfold spec_priority_lane, one_lane_counts.
  destruct l; cbn [lane_id_rank];
    repeat match goal with
      | |- context [Z.eqb ?a ?b] =>
          let v := eval vm_compute in (Z.eqb a b) in
          match v with
          | true => change (Z.eqb a b) with true
          | false => change (Z.eqb a b) with false
          end
      end;
    cbv beta iota zeta;
    repeat match goal with
      | |- context [Z.eqb ?a ?b] => destruct (Z.eqb_spec a b)
      end; try reflexivity; lia.
Qed.

(** X20: reset_signals republishes the canonical state (every lane Red,
    count 0, 15 seconds) whatever was published, leaves the processing status
    and the upload folder alone, and a second reset changes nothing. From
    that state, simulating a positive count n on one lane turns that lane
    Green with the table's duration for n and leaves the other three lanes
    Red with count 0 and 15 seconds. *)
Theorem reset_then_simulate_one_lane
  (env : Env) (w : World) (l : LaneId) (n : Z) :
  0 < n ->
  let w0 := snd (reset_signals w) in
  let data :=
    current_video_data
      (snd (simulate_traffic env
              (mkSimulate (Some (Some (lane_name l), Some n))) w0)) in
  w0 = mkWorld initial_video_data (processing_status w) (uploads w) /\
  snd (reset_signals w0) = w0 /\
  data = map (table_entry None None (lane_key l))
             (ascending_counts lane_key (one_lane_counts l n)) /\
  green_lanes data = [lane_key l] /\
  dict_get data (lane_key l)
  = Some (mkLaneData n Green (Config.get_signal_timing n) None).
Proof.
  intros Hn w0 data.
  split; [reflexivity|]. split; [reflexivity|].
  assert (Hwf : dict_wf (current_video_data w0)) by apply lane_keys_nodup.
  assert (Hin : In ("lane" ++ lane_name l)%string
                   (dict_keys (current_video_data w0))).
  { destruct l; cbn; tauto. }
  destruct (simulate_traffic_state env w0 (lane_name l) n Hwf Hin)
    as (Htiming & _).
  fold data in Htiming.
  assert (Hcounts : dict_set (counts_map (current_video_data w0))
                             ("lane" ++ lane_name l)%string n
                    = ascending_counts lane_key (one_lane_counts l n)).
  { destruct l; reflexivity. }
  rewrite Hcounts in Htiming.
  set (vc := ascending_counts lane_key (one_lane_counts l n)) in *.
  assert (Hvwf : dict_wf vc) by apply ascending_counts_wf, lane_key_injective.
  assert (Hvne : vc <> []) by discriminate.
  destruct (timing_shape vc Hvwf Hvne) as (m & Hm & Hmin & Happ & _).
  unfold vc in Hm.
  rewrite chosen_lane_ascending in Hm by exact lane_key_injective.
  rewrite one_lane_counts_priority in Hm by exact Hn.
  injection Hm as <-.
  assert (Hdata : data = map (table_entry None None (lane_key l)) vc)
    by congruence.
  split; [exact Hdata|]. rewrite Hdata. split.
  - now apply table_green_lanes.
  - rewrite dict_get_table.
    assert (Hget : dict_get vc (lane_key l) = Some n).
    { destruct l; reflexivity. }
    rewrite Hget. cbn [option_map table_entry fst snd].
    now rewrite String.eqb_refl.
Qed.

Lemma reset_then_simulate_one_lane_witness :
  0 < 12 /\
  let w0 := snd (reset_signals busy_world) in
  let data :=
    current_video_data
      (snd (simulate_traffic yolo_env
              (mkSimulate (Some (Some (lane_name LaneC), Some 12))) w0)) in
  w0 = mkWorld initial_video_data (processing_status busy_world)
               (uploads busy_world) /\
  snd (reset_signals w0) = w0 /\
  data = map (table_entry None None (lane_key LaneC))
             (ascending_counts lane_key (one_lane_counts LaneC 12)) /\
  green_lanes data = [lane_key LaneC] /\
  dict_get data (lane_key LaneC)
  = Some (mkLaneData 12 Green (Config.get_signal_timing 12) None).
Proof.
  assert (H : 0 < 12) by lia.
  split; [exact H|].
  exact (reset_then_simulate_one_lane yolo_env busy_world LaneC 12 H).
Defined.

(** ** The invariant of the published state *)

Lemma process_video_dummy_shape
  (env : Env) (video_path : string) (w w' : World)
  (counts : dict Z) (signals : SignalState) (processed : Z) (message : string) :
  process_video_dummy env video_path w
  = (Ok (ProcessOk counts signals processed message), w') ->
  dict_keys counts = lane_keys /\ calculate_signal_timing counts = Ok signals.
Proof.
  unfold process_video_dummy, try_except, bind.
  cbn [set_progress for_each range seq map Z.of_nat ret lift].
  intros H.
  destruct (calculate_signal_timing
              [("laneA", randint env 8 20); ("laneB", randint env 5 15);
               ("laneC", randint env 6 18); ("laneD", randint env 4 16)])
    as [s|e] eqn:Et; cbn [ret] in H; [|discriminate].
  injection H as <- <- _ _ _. now split.
Qed.

Lemma process_video_yolo_shape
  (env : Env) (video_path : string) (w w' : World)
  (counts : dict Z) (signals : SignalState) (processed : Z) (message : string) :
  process_video_yolo env video_path w
  = (Ok (ProcessOk counts signals processed message), w') ->
  dict_keys counts = lane_keys /\ calculate_signal_timing counts = Ok signals.
Proof.
  unfold process_video_yolo.
  destruct (negb (YOLO_AVAILABLE env)); [apply process_video_dummy_shape|].
  unfold try_except, bind.
  destruct (yolo_loads env); cbn [ret raise read_uploads]; [|discriminate].
  destruct (dict_get (uploads w) video_path) as [cap|];
    cbn [raise ret]; [|discriminate].
  destruct (isOpened cap); cbn [negb raise ret]; [|discriminate].
  fold initial_locals.
  destruct (frame_loop env (CAP_PROP_FRAME_COUNT cap) (video_frames cap)
              initial_locals w) as [[locals|e] w1] eqn:Eloop; [|discriminate].
  unfold lift.
  destruct (calculate_signal_timing (vehicle_counts locals)) as [s|e] eqn:Et;
    cbn [ret]; [|discriminate].
  intros H. injection H as <- <- _ _ _.
  destruct (frame_loop_result env _ _ initial_locals locals w w1 eq_refl Eloop)
    as (Hk & _).
  now split.
Qed.

Lemma simulate_traffic_defaults
  (env : Env) (lane : option string) (n : option Z) (w : World) :
  simulate_traffic env (mkSimulate (Some (lane, n))) w
  = simulate_traffic env
      (mkSimulate
         (Some (Some (match lane with Some l => l | None => "A" end),
                Some (match n with Some n => n | None => randint env 5 20 end))))
      w.
Proof. destruct lane, n; reflexivity. Qed.

(** X21: every handler that writes the published state keeps its shape: if
    current_video_data has exactly the keys laneA, laneB, laneC, laneD in
    that order and at most one Green lane, then so it has after
    process_video, after simulate_traffic and after reset_signals, for every
    request and whatever the file operations and the detector do; the state
    the module starts with has this shape. *)
Theorem published_state_invariant
  (env : Env) (upload : UploadRequest) (simulation : SimulateRequest)
  (w : World) :
  state_invariant (current_video_data w) ->
  state_invariant (current_video_data (snd (process_video env upload w))) /\
  state_invariant
    (current_video_data (snd (simulate_traffic env simulation w))) /\
  state_invariant (current_video_data (snd (reset_signals w))) /\
  state_invariant initial_video_data.
Proof.
  intros Hinv.
  assert (Hinit : state_invariant initial_video_data).
  { split; [reflexivity | cbn; lia]. }
  split; [|split; [|split; [exact Hinit | exact Hinit]]].
  - destruct upload as [[[name content]|]]; [|exact Hinv].
    destruct (String.eqb_spec name "") as [E|E].
    { unfold process_video, try_except. cbn [files_video].
      subst name. exact Hinv. }
    destruct (allowed_file env name) eqn:Ea.
    2:{ unfold process_video, try_except. cbn [files_video].
        destruct (String.eqb_spec name ""); [contradiction|].
        rewrite Ea. exact Hinv. }
    destruct (save_outcome env) eqn:Es.
    + destruct (process_video_accepted env name content w E Ea Es)
        as (result & w' & Hproc & Hrun).
      rewrite Hrun.
      assert (Hpub : state_invariant
                       (published_after result (current_video_data w))).
      { destruct result as [counts signals processed message|e message];
          [|exact Hinv].
        cbn [published_after].
        assert (Hshape : dict_keys counts = lane_keys /\
                         calculate_signal_timing counts = Ok signals).
        { unfold run_processing in Hproc.
          destruct (YOLO_AVAILABLE env);
            [now apply process_video_yolo_shape in Hproc
            |now apply process_video_dummy_shape in Hproc]. }
        destruct Hshape as [Hk Ht].
        now destruct (timing_result_invariant counts signals Hk Ht). }
      destruct (remove_raises env); exact Hpub.
    + unfold process_video, try_except, bind, file_save. cbn [files_video].
      destruct (String.eqb_spec name ""); [contradiction|].
      rewrite Ea, Es. exact Hinv.
    + unfold process_video, try_except, bind, file_save. cbn [files_video].
      destruct (String.eqb_spec name ""); [contradiction|].
      rewrite Ea, Es. exact Hinv.
  - destruct simulation as [[[lane n]|]]; [|exact Hinv].
    rewrite simulate_traffic_defaults.
    set (lane' := match lane with Some l => l | None => "A" end).
    set (n' := match n with Some n => n | None => randint env 5 20 end).
    destruct Hinv as [Hkeys Hgreen].
    assert (Hwf : dict_wf (current_video_data w)).
    { unfold dict_wf. rewrite Hkeys. apply lane_keys_nodup. }
    destruct (dict_mem ("lane" ++ lane')%string (current_video_data w)) eqn:Em.
    + apply dict_mem_true_iff in Em.
      destruct (simulate_traffic_state env w lane' n' Hwf Em)
        as (Ht & _ & Hk & _).
      apply (timing_result_invariant _ _) in Ht; [tauto|].
      rewrite dict_keys_set_present; rewrite counts_map_keys; easy.
    + unfold simulate_traffic, try_except, bind.
      cbn [get_json ret fst snd read_current_video_data].
      rewrite Em. now split.
Qed.

Lemma published_state_invariant_witness :
  state_invariant (current_video_data busy_world) /\
  state_invariant
    (current_video_data
       (snd (process_video yolo_env (clip_request one_car_video) busy_world))) /\
  state_invariant
    (current_video_data
       (snd (simulate_traffic yolo_env (mkSimulate (Some (None, None)))
               busy_world))) /\
  state_invariant (current_video_data (snd (reset_signals busy_world))) /\
  state_invariant initial_video_data.
Proof.
  assert (H : state_invariant (current_video_data busy_world)).
  { split; [reflexivity | cbn; lia]. }
  split; [exact H|].
  exact (published_state_invariant yolo_env (clip_request one_car_video)
           (mkSimulate (Some (None, None))) busy_world H).
Defined.

(** ** File operations that fail *)

(** X22: what process_video does with an accepted upload when a file
    operation raises. If file.save raises, the answer is 500, the status
    becomes error with the progress left as it was, nothing is published, and
    the upload folder holds the truncated file exactly when the save failed
    while writing. If os.remove raises, the processing step has run on the
    saved file and, when its result is a success, that result's signals are
    the published state; the answer nevertheless is 500 and the status
    error, and the upload stays in the folder. *)
Theorem process_video_file_operation_failures
  (env : Env) (name : string) (content : Video) (w : World) :
  name <> "" ->
  allowed_file env name = true ->
  (save_outcome env <> SaveOk ->
   process_video env (mkUpload (Some (name, content))) w
   = (Ok (mkResponse 500 (ExceptionBody OSError)),
      mkWorld (current_video_data w)
              (mkStatus error (progress (processing_status w)))
              (match save_outcome env with
               | SaveFailsWhileWriting truncated =>
                   dict_set (uploads w) (video_path_of env name) truncated
               | _ => uploads w
               end))) /\
  (save_outcome env = SaveOk -> remove_raises env = true ->
   exists result w',
     run_processing env (video_path_of env name) (job_world env name content w)
     = (Ok result, w') /\
     process_video env (mkUpload (Some (name, content))) w
     = (Ok (mkResponse 500 (ExceptionBody OSError)),
        mkWorld (match result with
                 | ProcessOk _ signals _ _ => signals
                 | ProcessFailed _ _ => current_video_data w
                 end)
                (mkStatus error 100)
                (dict_set (uploads w) (video_path_of env name) content))).
Proof.
  intros Hname Hallowed. split.
  - intros Hsave.
    unfold process_video, try_except, bind, file_save. cbn [files_video].
    destruct (String.eqb_spec name ""); [contradiction|].
    rewrite Hallowed.
    destruct (save_outcome env); [contradiction | reflexivity | reflexivity].
  - intros Hsave Hremove.
    destruct (process_video_accepted env name content w Hname Hallowed Hsave)
      as (result & w' & Hproc & Hrun).
    exists result, w'. split; [exact Hproc|]. now rewrite Hrun, Hremove.
Qed.

Lemma process_video_file_operation_failures_witness :
  "clip.mp4" <> "" /\
  allowed_file remove_failing_env "clip.mp4" = true /\
  (save_outcome remove_failing_env <> SaveOk ->
   process_video remove_failing_env
     (mkUpload (Some ("clip.mp4", one_car_video))) busy_world
   = (Ok (mkResponse 500 (ExceptionBody OSError)),
      mkWorld (current_video_data busy_world)
              (mkStatus error (progress (processing_status busy_world)))
              (match save_outcome remove_failing_env with
               | SaveFailsWhileWriting truncated =>
                   dict_set (uploads busy_world)
                            (video_path_of remove_failing_env "clip.mp4")
                            truncated
               | _ => uploads busy_world
               end))) /\
  exists result w',
    run_processing remove_failing_env
      (video_path_of remove_failing_env "clip.mp4")
      (job_world remove_failing_env "clip.mp4" one_car_video busy_world)
    = (Ok result, w') /\
    process_video remove_failing_env
      (mkUpload (Some ("clip.mp4", one_car_video))) busy_world
    = (Ok (mkResponse 500 (ExceptionBody OSError)),
       mkWorld (match result with
                | ProcessOk _ signals _ _ => signals
                | ProcessFailed _ _ => current_video_data busy_world
                end)
               (mkStatus error 100)
               (dict_set (uploads busy_world)
                         (video_path_of remove_failing_env "clip.mp4")
                         one_car_video)).
Proof.
  assert (H1 : "clip.mp4" <> "") by discriminate.
  assert (H2 : allowed_file remove_failing_env "clip.mp4" = true)
    by reflexivity.
  split; [exact H1|]. split; [exact H2|].
  destruct (process_video_file_operation_failures remove_failing_env
              "clip.mp4" one_car_video busy_world H1 H2) as [Hsave Hremove].
  split; [exact Hsave|].
  apply Hremove; reflexivity.
Defined.

(** ** A strict maximum *)

(** X23: when one lane's count is strictly larger than every other lane's,
    that lane is the Green lane of both timing functions whatever the order
    in which the mapping lists the lanes: the order matters for ties only. *)
Theorem strict_maximum_is_green
  (vehicle_counts : dict Z) (lane : string) (n : Z) :
  dict_wf vehicle_counts ->
  In (lane, n) vehicle_counts ->
  (forall lane' n', In (lane', n') vehicle_counts -> lane' <> lane -> n' < n) ->
  result_green_lanes (calculate_signal_timing vehicle_counts) = Ok [lane] /\
  result_green_lanes
    (SignalController.calculate_adaptive_timing vehicle_counts)
  = Ok [lane].
Proof.
  intros Hwf Hin Hmax.
  assert (Hne : vehicle_counts <> []) by (intros E; now rewrite E in Hin).
  destruct (timing_shape vehicle_counts Hwf Hne) as (m & Hm & Hmin & Happ & Hutil).
  destruct (chosen_lane_first vehicle_counts m Hwf Hm)
    as (pre & nm & post & E & Hpre & Hpost).
  assert (Hm_in : In (m, nm) vehicle_counts).
  { rewrite E. apply in_or_app. right. now left. }
  assert (Heq : m = lane).
  { destruct (string_dec m lane) as [Heq|Hneq]; [exact Heq|exfalso].
    pose proof (Hmax m nm Hm_in Hneq) as Hlt.
    rewrite E in Hin. apply in_app_or in Hin.
    destruct Hin as [Hin|[Hin|Hin]].
    - specialize (Hpre _ Hin). simpl in Hpre. lia.
    - injection Hin as Hl _. contradiction.
    - specialize (Hpost _ Hin). simpl in Hpost. lia. }
  subst m. rewrite Happ, Hutil. unfold result_green_lanes, rbind.
  now rewrite !table_green_lanes.
Qed.

Lemma strict_maximum_is_green_witness :
  let vehicle_counts := [("D", 9); ("C", 20); ("A", 8); ("B", 4)] in
  dict_wf vehicle_counts /\
  In ("C", 20) vehicle_counts /\
  (forall lane' n', In (lane', n') vehicle_counts -> lane' <> "C" -> n' < 20) /\
  result_green_lanes (calculate_signal_timing vehicle_counts) = Ok ["C"] /\
  result_green_lanes
    (SignalController.calculate_adaptive_timing vehicle_counts)
  = Ok ["C"].
Proof.
  intros vehicle_counts.
  assert (Hwf : dict_wf vehicle_counts).
  { unfold dict_wf, vehicle_counts. cbn.
    repeat constructor; cbn [In];
      intros H; repeat destruct H as [H|H]; try exact H; discriminate H. }
  assert (Hin : In ("C", 20) vehicle_counts) by (cbn; tauto).
  assert (Hmax : forall lane' n',
             In (lane', n') vehicle_counts -> lane' <> "C" -> n' < 20).
  { intros lane' n' H Hne. cbn in H.
    destruct H as [H|[H|[H|[H|[]]]]]; injection H as <- <-;
      try lia; now elim Hne. }
  split; [exact Hwf|]. split; [exact Hin|]. split; [exact Hmax|].
  exact (strict_maximum_is_green vehicle_counts "C" 20 Hwf Hin Hmax).
Defined.
